(** * parallel.c: one worker process per input file, letter histograms
      collected by a SIGCHLD handler

    A shallow embedding of [src/parallel.c]:
    - [Histogram] (lines 98-118) as a pure function on C [char] values;
    - [sigchld] (lines 29-90) as a state-passing function over the reaped
      children that [waitpid] hands to the handler;
    - [main] (lines 120-220) as a labelled step function over program
      points, run by the supervisor and, after [fork], by every child. *)

From stdpp Require Import gmap strings list.
From Stdlib Require Import ZArith Lia Ascii DecimalString.
From Stdlib Require DecimalPos DecimalZ.

Local Open Scope Z_scope.

(** ** C integers and <ctype.h> *)

Definition INT_MAX : Z := 2147483647.

(** [int] arithmetic: the result of an operation reduced to 32 bits, two's
    complement. *)
Definition wrap_int (x : Z) : Z := (x + 2 ^ 31) mod 2 ^ 32 - 2 ^ 31.

(** The program never calls [setlocale], so <ctype.h> classifies in the "C"
    locale: the letters are the 52 ASCII letters.  A [char] is a [Z]; bytes
    above 127 (negative as a signed [char]) are letters in no case. *)
Definition isupper (c : Z) : bool := (65 <=? c) && (c <=? 90).
Definition islower (c : Z) : bool := (97 <=? c) && (c <=? 122).
Definition isalpha (c : Z) : bool := isupper c || islower c.
Definition tolower (c : Z) : Z := if isupper c then c + 32 else c.

(** ** Histogram (lines 98-118) *)

Module Hist.

(** Lines 110-114, the body of the counting loop for one byte [c]:
    [if (isalpha(c)) { c = tolower(c); histogram[c - 'a']++; }] *)
Definition bump (histogram : list Z) (c : Z) : list Z :=
  if isalpha c
  then alter (fun n => wrap_int (n + 1)) (Z.to_nat (tolower c - 97)) histogram
  else histogram.

(** Lines 109-115: [for (int i = 0; i < Size; i++)] reading [Data[i]].  The
    callers pass a buffer of at least [Size] bytes; an index outside the
    buffer (undefined in C) is skipped here. *)
Definition count_loop (Data : list Z) (Size : Z) (histogram : list Z) : list Z :=
  foldl (fun h i => match Data !! i with Some c => bump h c | None => h end)
        histogram (seq 0 (Z.to_nat Size)).

(** Lines 98-118.  [mem] is the outcome of [malloc(26 * sizeof(int))]:
    on failure the function returns [NULL] ([None]). *)
Definition Histogram (mem : bool) (Data : list Z) (Size : Z) : option (list Z) :=
  if mem then Some (count_loop Data Size (replicate 26 0)) else None.

Arguments Histogram : simpl never.

(** What the specification counts: the bytes of [Data] that are the letter
    ['a' + i] in lower or in upper case. *)
Definition is_letter (i : nat) (c : Z) : Prop :=
  c = 97 + Z.of_nat i \/ c = 65 + Z.of_nat i.

#[global] Instance is_letter_dec i c : Decision (is_letter i c).
Proof. unfold is_letter. apply _. Defined.

Definition letter_count (i : nat) (Data : list Z) : Z :=
  Z.of_nat (length (filter (is_letter i) Data)).

Definition alpha (c : Z) : Prop := isalpha c = true.

#[global] Instance alpha_dec c : Decision (alpha c).
Proof. unfold alpha. apply _. Defined.

Definition alpha_count (Data : list Z) : Z :=
  Z.of_nat (length (filter alpha Data)).

(** The other-case counterpart of a character; a non-letter has none and
    stays as it is. *)
Definition other_case (c : Z) : Z :=
  if isupper c then c + 32 else if islower c then c - 32 else c.

(** [Data'] is [Data] with some of its characters replaced by their
    other-case counterpart. *)
Definition case_variant (Data Data' : list Z) : Prop :=
  Forall2 (fun c c' => c' = c \/ c' = other_case c) Data Data'.

Definition sum_buckets (h : list Z) : Z := foldr Z.add 0 h.

End Hist.

(** ** Text: [sprintf] and file contents *)

Definition nl : string := String "010"%char EmptyString.

(** [%d] *)
Definition dec (n : Z) : string := NilZero.string_of_int (Z.to_int n).

(** Line 60: [sprintf(filename, "file%d.hist", child_pid)] *)
Definition hist_name (child_pid : Z) : string :=
  "file" +:+ dec child_pid +:+ ".hist".

(** Line 70: [sprintf(line, "%c=%d\n", letter, count)], for the letter
    ['a' + k]. *)
Definition hist_line (k : nat) (count : Z) : string :=
  String (Ascii.ascii_of_nat (97 + k)) ("=" +:+ dec count +:+ nl).

(** [write] of [data] at the start of a file holding [old]: the bytes
    overwrite what was there, and what lies beyond them stays. *)
Fixpoint overwrite (data old : string) : string :=
  match data with
  | EmptyString => old
  | String c d =>
      String c (overwrite d (match old with
                             | EmptyString => EmptyString
                             | String _ o => o
                             end))
  end.

(** [write] of [data] at offset [off]; a gap before the offset reads as
    zero bytes. *)
Fixpoint write_at (off : nat) (data old : string) : string :=
  match off with
  | O => overwrite data old
  | S n =>
      match old with
      | EmptyString => String "000"%char (write_at n data EmptyString)
      | String c o => String c (write_at n data o)
      end
  end.

(** A byte of a file as a C [char] (signed). *)
Definition char_of_ascii (a : Ascii.ascii) : Z :=
  let n := Z.of_nat (Ascii.nat_of_ascii a) in
  if 128 <=? n then n - 256 else n.

Definition chars_of (content : string) : list Z :=
  char_of_ascii <$> String.list_ascii_of_string content.

(** ** Processes and the kernel objects they use *)

Definition MAX_FILES : nat := 100.
Definition EXIT_FAILURE : Z := 1.
Definition SIGINT : Z := 2.

(** What [waitpid] reports about a terminated child. *)
Inductive wstatus :=
| WExited (code : Z)
| WSignaled (sig : Z).

Definition WIFEXITED (child_status : wstatus) : bool :=
  match child_status with WExited _ => true | WSignaled _ => false end.

Definition WIFSIGNALED (child_status : wstatus) : bool :=
  match child_status with WExited _ => false | WSignaled _ => true end.

(** The two ends of kernel pipe [p]. *)
Inductive endpoint :=
| RdEnd (p : Z)
| WrEnd (p : Z).

#[global] Instance endpoint_eq_dec : EqDecision endpoint.
Proof. solve_decision. Defined.

(** What all processes share: the files, and the pipes with the [int]s
    buffered in each.  [denied] lists the paths on which [open] fails
    although the call is well formed (permissions and the like). *)
Record world := World {
  files : gmap string string;
  denied : list string;
  pipebuf : gmap Z (list Z);
}.

Inductive message :=
| MNoInput                       (* line 125 *)
| MTooMany                       (* line 129 *)
| MCaught (child_pid : Z)        (* line 38 *)
| MReadFrom (curPipe : nat)      (* line 57 *)
| MSaved (filename : string)     (* line 74 *)
| MNotFound (child_pid : Z)      (* line 78 *)
| MAbnormal (child_pid : Z)      (* line 81 *)
| MCannotOpen (path : string)    (* line 163 *)
| MPerror (what : string).       (* the [perror] calls *)

(** The calls a process makes, in order.  Progress messages of [main] other
    than the error reports are not logged. *)
Inductive event :=
| EPrintf (m : message)
| ESigaction
| ESignal
| EPipe (p r w : Z)
| EFork (pid : Z)
| EClose (fd : Z) (e : option endpoint)
| EKill (pid sig : Z)
| EOpenRead (path : string) (ok : bool)
| ELoad (path : string)
| EReadPipe (fd : Z) (bytesRead : Z)
| EWritePipe (fd : Z) (sent : bool)
| EOpenWrite (path : string) (ok : bool)
| ECloseFile (path : string)
| ESleep (seconds : Z).

(** How a process ended: [return] from [main], [exit], or a signal. *)
Inductive halt :=
| Returned (code : Z)
| Exited (code : Z)
| Killed (sig : Z).

(** Program points of [main].  [i] is the loop variable of line 141, [pid]
    the value [fork] returned, [Data] the bytes loaded from the file. *)
Inductive pcpoint :=
| AtStart                              (* line 121 *)
| AtLoop (i : nat)                     (* line 141, the test [i < argc] *)
| AtPipe (i : nat)                     (* line 145 *)
| AtFork (i : nat)                     (* line 150 *)
| ChildClose (i : nat)                 (* line 156 *)
| ChildCmp (i : nat)                   (* line 159 *)
| ChildOpen (i : nat)                  (* line 161 *)
| ChildLoad (i : nat)                  (* lines 169-178 *)
| ChildCompute (i : nat) (Data : list Z)   (* lines 182-185 *)
| ChildSleep (i : nat)                 (* line 189 *)
| ChildDone (i : nat)                  (* lines 192-193 *)
| ChildWaitSig (i : nat)               (* lines 195-196 *)
| ParentClose (i : nat) (pid : Z)      (* line 200 *)
| ParentStore (i : nat) (pid : Z)      (* line 201 *)
| ParentCount (i : nat) (pid : Z)      (* line 202 *)
| ParentSig (i : nat) (pid : Z)        (* lines 205-208 *)
| AtWait                               (* line 214 *)
| Halted (h : halt).

(** One process: its program point, its copy of the globals of lines
    20-23, and what the kernel keeps for it: the descriptor table (pipe
    ends only) and the children it has not reaped yet. *)
Record proc := Proc {
  pc : pcpoint;
  argv : list string;
  pipes : list (Z * Z);
  pids : list Z;
  numChildren : Z;
  numTerminated : Z;
  fdt : gmap Z endpoint;
  children : list Z;
  log : list event;
}.

Definition with_pc (x : pcpoint) (s : proc) : proc :=
  Proc x (argv s) (pipes s) (pids s) (numChildren s) (numTerminated s)
       (fdt s) (children s) (log s).

Definition emit (e : event) (s : proc) : proc :=
  Proc (pc s) (argv s) (pipes s) (pids s) (numChildren s) (numTerminated s)
       (fdt s) (children s) (log s ++ [e]).

Definition say (m : message) (s : proc) : proc := emit (EPrintf m) s.

(** [exit(code)] *)
Definition sys_exit (code : Z) (s : proc) : proc :=
  with_pc (Halted (Exited code)) s.

(** [close(fd)] *)
Definition sys_close (fd : Z) (s : proc) : proc :=
  emit (EClose fd (fdt s !! fd))
       (Proc (pc s) (argv s) (pipes s) (pids s) (numChildren s)
             (numTerminated s) (delete fd (fdt s)) (children s) (log s)).

Definition is_halted (x : pcpoint) : bool :=
  match x with Halted _ => true | _ => false end.

(** [pipes[k][0]] and [pipes[k][1]] *)
Definition read_end (table : list (Z * Z)) (k : nat) : Z :=
  (default (0, 0) (table !! k)).1.
Definition write_end (table : list (Z * Z)) (k : nat) : Z :=
  (default (0, 0) (table !! k)).2.

(** Line 39, [numTerminated++], with the kernel forgetting the child that
    [waitpid] has just returned. *)
Definition reaped (child_pid : Z) (s : proc) : proc :=
  Proc (pc s) (argv s) (pipes s) (pids s) (numChildren s)
       (numTerminated s + 1) (fdt s)
       (filter (fun p => p ≠ child_pid) (children s)) (log s).

(** ** The SIGCHLD handler (lines 29-90) *)

(** Lines 43-51: the first index whose [pids] entry is [child_pid]
    ([None] is the [-1] of the source). *)
Fixpoint find_pipe (child_pid : Z) (table : list Z) (i : nat) : option nat :=
  match table with
  | [] => None
  | p :: rest =>
      if child_pid =? p then Some i else find_pipe child_pid rest (S i)
  end.

(** Line 55: [read(fd, characterCounts, sizeof(characterCounts))], with
    [counts] the array before the call.  A pipe delivers what is buffered, at
    most 26 [int]s; on an empty pipe whose write ends are all closed the
    call returns 0; on a descriptor that is no read end it returns -1. *)
Definition read_counts (fd : Z) (counts : list Z) (w : world) (s : proc)
  : Z * list Z * world :=
  match fdt s !! fd with
  | Some (RdEnd p) =>
      let data := default [] (pipebuf w !! p) in
      let got := take 26 data in
      (4 * Z.of_nat (length got),
       got ++ drop (length got) counts,
       World (files w) (denied w) (<[p := drop 26 data]> (pipebuf w)))
  | _ => (-1, counts, w)
  end.

(** Lines 68-72: one [write] per letter, each at the offset the previous one
    left.  The state is the file's content and the offset. *)
Definition write_letter (counts : list Z) (st : string * nat) (k : nat)
  : string * nat :=
  let line := hist_line k (default 0 (counts !! k)) in
  (write_at st.2 line st.1, (st.2 + String.length line)%nat).

Definition write_counts (counts : list Z) (old : string) : string :=
  (foldl (write_letter counts) (old, O) (seq 0 26)).1.

Arguments write_counts : simpl never.
Arguments hist_name : simpl never.
Arguments hist_line : simpl never.
Arguments dec : simpl never.

(** Line 61: [open(filename, O_CREAT | O_WRONLY, 0644)]: the file is made
    if it is not there, and is not truncated if it is. *)
Definition open_create (filename : string) (w : world) : option string :=
  if bool_decide (filename ∈ denied w) then None
  else Some (default EmptyString (files w !! filename)).

(** Lines 38-82, the body of the [while] loop for one reaped child. *)
Definition reap_child (child_pid : Z) (child_status : wstatus)
    (counts : list Z) (w : world) (s : proc) : world * proc * list Z :=
  let s := say (MCaught child_pid) s in
  let s := reaped child_pid s in
  if WIFEXITED child_status then
    match find_pipe child_pid (take MAX_FILES (pids s)) 0 with
    | Some curPipe =>
        let fd0 := read_end (pipes s) curPipe in
        let '(bytesRead, counts, w) := read_counts fd0 counts w s in
        let s := emit (EReadPipe fd0 bytesRead) s in
        if 0 <? bytesRead then
          let s := say (MReadFrom curPipe) s in
          let filename := hist_name child_pid in
          match open_create filename w with
          | None =>
              let s := emit (EOpenWrite filename false) s in
              let s := say (MPerror "Error opening file") s in
              (w, sys_exit EXIT_FAILURE s, counts)
          | Some old =>
              let s := emit (EOpenWrite filename true) s in
              let w := World (<[filename := write_counts counts old]> (files w))
                             (denied w) (pipebuf w) in
              let s := emit (ECloseFile filename) s in
              let s := say (MSaved filename) s in
              (w, sys_close fd0 s, counts)
          end
        else (w, sys_close fd0 s, counts)
    | None => (w, say (MNotFound child_pid) s, counts)
    end
  else (w, say (MAbnormal child_pid) s, counts).

(** Line 37: the loop runs while [waitpid(-1, &child_status, WNOHANG)]
    returns a child; [zs] are the children it returns, in order.  [exit]
    inside the body ends the process. *)
Fixpoint reap_loop (zs : list (Z * wstatus)) (counts : list Z)
    (w : world) (s : proc) : world * proc :=
  match zs with
  | [] => (w, s)
  | (child_pid, child_status) :: rest =>
      let '(w', s', counts') := reap_child child_pid child_status counts w s in
      if is_halted (pc s') then (w', s') else reap_loop rest counts' w' s'
  end.

(** Lines 29-90.  [junk] is what the uninitialised array [characterCounts]
    holds on entry.  Line 86 registers the handler again; [signal] does not
    fail for [SIGCHLD] and a handler, so the [exit] of line 88 is not
    reached. *)
Definition sigchld (junk : list Z) (zs : list (Z * wstatus))
    (w : world) (s : proc) : world * proc :=
  let '(w', s') := reap_loop zs junk w s in
  if is_halted (pc s') then (w', s') else (w', emit ESignal s').

(** ** main (lines 120-220) *)

(** What the environment decides at a step. *)
Inductive label :=
| Run                                     (* the next statement *)
| PipeOk (p r w : Z)                      (* [pipe] makes pipe [p] with descriptors [r], [w] *)
| PipeFail
| ForkParent (pid : Z)                    (* [fork] returns [pid] in the parent *)
| ForkFail
| NoMem                                   (* the [malloc] of the next statement returns [NULL] *)
| Deliver (sig : Z)                       (* a signal whose action ends the process *)
| Sigchld (junk : list Z) (zs : list (Z * wstatus)).   (* the handler runs, reaping [zs] *)

Definition argc (s : proc) : nat := length (argv s).

Definition arg (s : proc) (i : nat) : string := default EmptyString (argv s !! i).

(** [waitpid] returns only children of the caller that it has not returned
    before. *)
Definition reapable (s : proc) (zs : list (Z * wstatus)) : bool :=
  bool_decide (NoDup zs.*1) && forallb (fun z => bool_decide (z.1 ∈ children s)) zs.

(** [open(path, O_RDONLY)] *)
Definition open_read (path : string) (w : world) : option string :=
  if bool_decide (path ∈ denied w) then None else files w !! path.

(** Line 183: [write(fd, calcHisto, 26 * sizeof(int))]; nothing is sent when
    [calcHisto] is [NULL] or [fd] is no write end. *)
Definition write_counts_pipe (fd : Z) (calcHisto : option (list Z))
    (w : world) (s : proc) : world * proc :=
  match calcHisto, fdt s !! fd with
  | Some h, Some (WrEnd p) =>
      (World (files w) (denied w)
             (<[p := default [] (pipebuf w !! p) ++ h]> (pipebuf w)),
       emit (EWritePipe fd true) s)
  | _, _ => (w, emit (EWritePipe fd false) s)
  end.

(** The process a successful [fork] at line 150 creates: a copy of the
    caller in which [fork] returned 0, with no children of its own. *)
Definition fork_child (i : nat) (s : proc) : proc :=
  Proc (ChildClose i) (argv s) (pipes s) (pids s) (numChildren s)
       (numTerminated s) (fdt s) [] [].

Definition step (l : label) (st : world * proc) : option (world * proc) :=
  let '(w, s) := st in
  match pc s, l with
  | Halted _, _ => None
  | _, Deliver sig => Some (w, with_pc (Halted (Killed sig)) s)
  | _, Sigchld junk zs =>
      if reapable s zs then Some (sigchld junk zs w s) else None
  (* lines 121-138 *)
  | AtStart, Run =>
      if (argc s =? 1)%nat then
        Some (w, sys_exit EXIT_FAILURE (say MNoInput s))
      else if (MAX_FILES + 1 <? argc s)%nat then
        Some (w, sys_exit EXIT_FAILURE (say MTooMany s))
      else Some (w, with_pc (AtLoop 1) (emit ESigaction s))
  (* line 141 *)
  | AtLoop i, Run =>
      if (i <? argc s)%nat then Some (w, with_pc (AtPipe i) s)
      else Some (w, with_pc AtWait s)
  (* lines 145-148 *)
  | AtPipe i, PipeOk p r wr =>
      if bool_decide (pipebuf w !! p = None ∧ r ≠ wr ∧
                      fdt s !! r = None ∧ fdt s !! wr = None)
      then Some (World (files w) (denied w) (<[p := []]> (pipebuf w)),
                 emit (EPipe p r wr)
                   (Proc (AtFork i) (argv s) (<[(i - 1)%nat := (r, wr)]> (pipes s))
                         (pids s) (numChildren s) (numTerminated s)
                         (<[r := RdEnd p]> (<[wr := WrEnd p]> (fdt s)))
                         (children s) (log s)))
      else None
  | AtPipe i, PipeFail =>
      Some (w, sys_exit EXIT_FAILURE (say (MPerror "Error creating pipe") s))
  (* lines 150-153 *)
  | AtFork i, ForkParent pid =>
      if bool_decide (0 < pid ∧ pid ∉ children s)
      then Some (w, emit (EFork pid)
                      (Proc (ParentClose i pid) (argv s) (pipes s) (pids s)
                            (numChildren s) (numTerminated s) (fdt s)
                            (pid :: children s) (log s)))
      else None
  | AtFork i, ForkFail =>
      Some (w, sys_exit EXIT_FAILURE
                 (say (MPerror "Error forking child process") s))
  (* line 156 *)
  | ChildClose i, Run =>
      Some (w, with_pc (ChildCmp i) (sys_close (read_end (pipes s) (i - 1)) s))
  (* line 159 *)
  | ChildCmp i, Run =>
      if bool_decide (arg s i ≠ "SIG")
      then Some (w, with_pc (ChildOpen i) s)
      else Some (w, with_pc (ChildWaitSig i) s)
  (* lines 161-166 *)
  | ChildOpen i, Run =>
      match open_read (arg s i) w with
      | None =>
          let s := emit (EOpenRead (arg s i) false) s in
          let s := say (MCannotOpen (arg s i)) s in
          Some (w, sys_exit 1 (sys_close (write_end (pipes s) (i - 1)) s))
      | Some _ =>
          Some (w, with_pc (ChildLoad i) (emit (EOpenRead (arg s i) true) s))
      end
  (* lines 169-178 *)
  | ChildLoad i, NoMem =>
      let s := say (MPerror "Failed to allocate memory for file data") s in
      Some (w, sys_exit 1 (sys_close (write_end (pipes s) (i - 1)) s))
  | ChildLoad i, Run =>
      let fileData := chars_of (default EmptyString (files w !! arg s i)) in
      Some (w, with_pc (ChildCompute i fileData) (emit (ELoad (arg s i)) s))
  (* lines 182-185; [fileSize] becomes the [int] parameter [Size] *)
  | ChildCompute i fileData, (Run | NoMem) =>
      let fileSize := Z.of_nat (length fileData) in
      let calcHisto :=
        Hist.Histogram (match l with NoMem => false | _ => true end)
                       fileData (wrap_int fileSize) in
      let sent := write_counts_pipe (write_end (pipes s) (i - 1)) calcHisto w s in
      Some (sent.1, with_pc (ChildSleep i) sent.2)
  (* line 189 *)
  | ChildSleep i, Run =>
      Some (w, with_pc (ChildDone i)
                 (emit (ESleep (10 + 3 * (Z.of_nat i - 1))) s))
  (* lines 192-193 *)
  | ChildDone i, Run =>
      Some (w, sys_exit 0 (sys_close (write_end (pipes s) (i - 1)) s))
  (* lines 195-197: [sleep(10)] returns, the [else] branch ends, and control
     reaches the [i++] of the [for] loop *)
  | ChildWaitSig i, Run =>
      Some (w, with_pc (AtLoop (S i)) (emit (ESleep 10) s))
  (* line 200 *)
  | ParentClose i pid, Run =>
      Some (w, with_pc (ParentStore i pid) (sys_close (write_end (pipes s) (i - 1)) s))
  (* line 201 *)
  | ParentStore i pid, Run =>
      Some (w, Proc (ParentCount i pid) (argv s) (pipes s)
                    (<[(i - 1)%nat := pid]> (pids s))
                    (numChildren s) (numTerminated s) (fdt s) (children s)
                    (log s))
  (* line 202 *)
  | ParentCount i pid, Run =>
      Some (w, Proc (ParentSig i pid) (argv s) (pipes s) (pids s)
                    (numChildren s + 1) (numTerminated s) (fdt s)
                    (children s) (log s))
  (* lines 205-208 *)
  | ParentSig i pid, Run =>
      if bool_decide (arg s i = "SIG")
      then Some (w, with_pc (AtLoop (S i)) (emit (EKill pid SIGINT) s))
      else Some (w, with_pc (AtLoop (S i)) s)
  (* lines 214-219 *)
  | AtWait, Run =>
      if numTerminated s <? numChildren s
      then Some (w, emit (ESleep 1) s)
      else Some (w, with_pc (Halted (Returned 0)) s)
  | _, _ => None
  end.

(** A run: the steps the labels in [ls] select, in order. *)
Fixpoint run (ls : list label) (st : world * proc) : option (world * proc) :=
  match ls with
  | [] => Some st
  | l :: rest =>
      match step l st with
      | Some st' => run rest st'
      | None => None
      end
  end.

(** The process as [execve] starts it: the globals of lines 20-23 are zero,
    no pipe is open, there is no child. *)
Definition init (args : list string) : proc :=
  Proc AtStart args (replicate MAX_FILES (0, 0)) (replicate MAX_FILES 0)
       0 0 ∅ [] [].

Definition reachable (w0 : world) (args : list string) (st : world * proc) : Prop :=
  exists ls, run ls (w0, init args) = Some st.

(** ** Observations on a process *)

(** The calls that create a pipe or a process. *)
Definition is_pipe (e : event) : bool :=
  match e with EPipe _ _ _ => true | _ => false end.

Definition is_fork (e : event) : bool :=
  match e with EFork _ => true | _ => false end.

(** The children forked so far. *)
Definition forks (l : list event) : nat :=
  length (List.filter is_fork l).

Definition forked (s : proc) : Z := Z.of_nat (forks (log s)).

Arguments forks : simpl never.

(** The [close] calls that closed the end [e] of a pipe. *)
Definition closes_end (e : endpoint) (ev : event) : bool :=
  match ev with
  | EClose _ (Some e') => bool_decide (e' = e)
  | _ => false
  end.

Definition closes (e : endpoint) (l : list event) : nat :=
  length (List.filter (closes_end e) l).

(** The writes to a pipe that sent data. *)
Definition is_send (ev : event) : bool :=
  match ev with EWritePipe _ true => true | _ => false end.

Definition sends (l : list event) : nat :=
  length (List.filter is_send l).

(** Between [fork] returning in the parent (line 199) and [numChildren++]
    (line 202) the new child is not counted yet. *)
Definition uncounted (x : pcpoint) : Z :=
  match x with
  | ParentClose _ _ | ParentStore _ _ | ParentCount _ _ => 1
  | _ => 0
  end.


(** The 26 lines of a histogram file. *)
Definition hist_text (counts : list Z) : string :=
  foldr (fun k rest => hist_line k (default 0 (counts !! k)) +:+ rest)
        EmptyString (seq 0 26).

Arguments hist_text : simpl never.

(** ** Invariants *)

(** What holds of the process as long as the argument check of lines
    124-131 has not let it through. *)
Definition rejected (w0 : world) (st : world * proc) : Prop :=
  st.1 = w0 /\
  (pc st.2 = AtStart \/ pc st.2 = Halted (Exited EXIT_FAILURE) \/
   exists sig, pc st.2 = Halted (Killed sig)) /\
  fdt st.2 = ∅ /\ children st.2 = [] /\
  (forall e, e ∈ log st.2 -> is_pipe e = false /\ is_fork e = false) /\
  (length (argv st.2) = 1%nat \/ (MAX_FILES + 1 < length (argv st.2))%nat).

(** The supervisor's counters against what the kernel knows: every child
    forked is either counted as terminated or still to be reaped; while
    the process runs, [numChildren] lags behind the forks by the child that
    is not counted yet; and [main] has returned only with equal counters. *)
Definition counted (st : world * proc) : Prop :=
  NoDup (children st.2) /\
  numTerminated st.2 + Z.of_nat (length (children st.2)) = forked st.2 /\
  (is_halted (pc st.2) = false ->
   numChildren st.2 = forked st.2 - uncounted (pc st.2)) /\
  (forall c, pc st.2 = Halted (Returned c) ->
   numTerminated st.2 = numChildren st.2 /\ c = 0).

(** ** Example runs *)

Definition ex_world : world :=
  World {[ "ok.txt" := "AbcAbc" ]} [] ∅.

Definition ex_junk : list Z := replicate 26 7.

(** The supervisor started on a file that does not exist: the worker is
    forked, fails at once, and the handler runs before line 202. *)
Definition ex_race : list label :=
  [Run; Run; PipeOk 0 3 4; ForkParent 500; Sigchld ex_junk [(500, WExited 1)]].

(** The same start with the handler running after line 202, up to the
    return from [main]. *)
Definition ex_missing : list label :=
  [Run; Run; PipeOk 0 3 4; ForkParent 500; Run; Run; Run; Run; Run;
   Sigchld ex_junk [(500, WExited 1)]; Run].

(** The state at the end of a run of one process; the start state if the
    run is not possible. *)
Definition ex_final (ls : list label) (w : world) (args : list string)
  : world * proc :=
  default (w, init args) (run ls (w, init args)).

(** ** The supervisor with its workers *)

(** What [waitpid] reports for a process that ended with [h]. *)
Definition exit_status (h : halt) : wstatus :=
  match h with
  | Returned code | Exited code => WExited code
  | Killed sig => WSignaled sig
  end.

#[global] Instance wstatus_eq_dec : EqDecision wstatus.
Proof. solve_decision. Defined.

(** The supervisor, the processes it has forked (by pid), and the world
    they share.  Processes forked by a worker are not followed. *)
Record system := Sys {
  sys_world : world;
  sys_sup : proc;
  sys_kids : gmap Z proc;
}.

(** [waitpid] returns a child only when it has ended, with the status it
    ended with. *)
Definition ended_with (kids : gmap Z proc) (z : Z * wstatus) : bool :=
  match kids !! z.1 with
  | Some k =>
      match pc k with
      | Halted h => bool_decide (exit_status h = z.2)
      | _ => false
      end
  | None => false
  end.

(** One step of the system: of the supervisor ([who = None]) or of the
    worker with pid [who]. *)
Definition sys_step (who : option Z) (l : label) (sy : system) : option system :=
  match who with
  | None =>
      match step l (sys_world sy, sys_sup sy) with
      | Some (w', s') =>
          match l, pc (sys_sup sy) with
          | ForkParent pid, AtFork i =>
              match sys_kids sy !! pid with
              | None => Some (Sys w' s' (<[pid := fork_child i (sys_sup sy)]> (sys_kids sy)))
              | Some _ => None
              end
          | Sigchld _ zs, _ =>
              if forallb (ended_with (sys_kids sy)) zs
              then Some (Sys w' s' (sys_kids sy)) else None
          | _, _ => Some (Sys w' s' (sys_kids sy))
          end
      | None => None
      end
  | Some pid =>
      match sys_kids sy !! pid with
      | Some k =>
          match step l (sys_world sy, k) with
          | Some (w', k') => Some (Sys w' (sys_sup sy) (<[pid := k']> (sys_kids sy)))
          | None => None
          end
      | None => None
      end
  end.

Fixpoint sys_run (sched : list (option Z * label)) (sy : system) : option system :=
  match sched with
  | [] => Some sy
  | (who, l) :: rest =>
      match sys_step who l sy with
      | Some sy' => sys_run rest sy'
      | None => None
      end
  end.

Definition sys_init (w : world) (args : list string) : system :=
  Sys w (init args) ∅.

(** Schedules: [sup ls] are steps of the supervisor, [kid pid ls] steps of
    the worker [pid]. *)
Definition sup (ls : list label) : list (option Z * label) := (fun l => (None, l)) <$> ls.
Definition kid (pid : Z) (ls : list label) : list (option Z * label) :=
  (fun l => (Some pid, l)) <$> ls.

(** The system at the end of a schedule; the start state if the schedule
    cannot be run. *)
Definition outcome (sched : list (option Z * label)) (w : world)
    (args : list string) : system :=
  default (sys_init w args) (sys_run sched (sys_init w args)).

(** One readable file, processed to the end. *)
Definition sched_one_file : list (option Z * label) :=
  sup [Run; Run; PipeOk 0 3 4; ForkParent 500; Run; Run; Run; Run; Run]
  ++ kid 500 [Run; Run; Run; Run; Run; Run; Run]
  ++ sup [Run; Sigchld ex_junk [(500, WExited 0)]; Run].

(** A file that cannot be opened, then a readable one. *)
Definition sched_missing_then_ok : list (option Z * label) :=
  sup [Run; Run; PipeOk 0 3 4; ForkParent 500]
  ++ kid 500 [Run; Run; Run]
  ++ sup [Run; Run; Run; Run; Run; PipeOk 1 4 5; ForkParent 501;
          Sigchld ex_junk [(500, WExited 1)]; Run; Run; Run; Run; Run]
  ++ kid 501 [Run; Run; Run; Run; Run; Run; Run]
  ++ sup [Run; Sigchld ex_junk [(501, WExited 0)]; Run].

(** ["SIG"] alone: the worker is interrupted while it waits. *)
Definition sched_sig_interrupted : list (option Z * label) :=
  sup [Run; Run; PipeOk 0 3 4; ForkParent 500]
  ++ kid 500 [Run; Run]
  ++ sup [Run; Run; Run; Run]
  ++ kid 500 [Deliver SIGINT]
  ++ sup [Run; Sigchld ex_junk [(500, WSignaled SIGINT)]; Run].

(** ["SIG"] followed by a file, with the interrupt not ending the worker
    (the process was started with SIGINT ignored): [sleep(10)] returns. *)
Definition sched_sig_timeout : list (option Z * label) :=
  sup [Run; Run; PipeOk 0 3 4; ForkParent 500]
  ++ kid 500 [Run; Run]
  ++ sup [Run; Run; Run; Run]
  ++ kid 500 [Run; Run; PipeOk 1 3 5; ForkParent 900].

(** A world in which a longer [file500.hist] is left from an earlier run. *)
Definition ex_world_stale : world :=
  World {[ "ok.txt" := "AbcAbc";
           "file500.hist" := hist_text (replicate 26 1000000) ]} [] ∅.

(** The supervisor at line 150, about to fork the worker of a file that
    is not there. *)
Definition ex_at_fork : proc :=
  Proc (AtFork 1) ["parallel"; "missing.txt"]
       (<[0%nat := (3, 4)]> (replicate MAX_FILES (0, 0)))
       (replicate MAX_FILES 0) 0 0
       {[ 3 := RdEnd 0; 4 := WrEnd 0 ]} [] [].

(** The supervisor in the wait loop with worker 500 recorded. *)
Definition ex_waiting : proc :=
  Proc AtWait ["parallel"; "ok.txt"]
       (<[0%nat := (3, 4)]> (replicate MAX_FILES (0, 0)))
       (<[0%nat := 500]> (replicate MAX_FILES 0)) 1 0
       {[ 3 := RdEnd 0 ]} [500] [].

(** A world in which [file500.hist] cannot be opened and pipe 0 holds a
    histogram. *)
Definition ex_world_denied : world :=
  World ∅ ["file500.hist"] {[ 0 := replicate 26 1 ]}.

(** A file that cannot be opened, with the handler reaping the worker
    before line 201 has recorded its pid. *)
Definition sched_lookup_miss : list (option Z * label) :=
  sup [Run; Run; PipeOk 0 3 4; ForkParent 500]
  ++ kid 500 [Run; Run; Run]
  ++ sup [Sigchld ex_junk [(500, WExited 1)]; Run; Run; Run; Run; Run; Run].

(** A file, then ["SIG"], with the interrupt not ending the worker. *)
Definition sched_file_then_sig_timeout : list (option Z * label) :=
  sup [Run; Run; PipeOk 0 3 4; ForkParent 500; Run; Run; Run; Run; Run;
       PipeOk 1 4 5; ForkParent 501]
  ++ kid 501 [Run; Run; Run; Run].

(** [s] without its first [n] bytes. *)
Fixpoint sdrop (n : nat) (s : string) : string :=
  match n, s with
  | O, _ => s
  | S _, EmptyString => EmptyString
  | S m, String _ rest => sdrop m rest
  end.

(** ** Proof automation *)

(** Case analysis on the comparisons inside the <ctype.h> tests. *)
Ltac ctype_cases :=
  unfold tolower, Hist.other_case, isalpha, Hist.is_letter in *;
  unfold isupper, islower in *;
  repeat match goal with
         | |- context [?a <=? ?b] => destruct (Z.leb_spec a b)
         | H : context [?a <=? ?b] |- _ => destruct (Z.leb_spec a b)
         end;
  cbn [andb orb] in *.

Ltac splits := repeat match goal with |- _ /\ _ => split end.

(** Project the fields of the states built by the updates. *)
Ltac proc_simpl :=
  cbv zeta in *;
  repeat progress
    (cbn [pc argv pipes pids numChildren numTerminated fdt children log
          files denied pipebuf fst snd] in *;
     autorewrite with proc in * ).

(** ** Further observations *)

(** The events the handler can add to the log. *)
Definition handler_event (e : event) : bool :=
  match e with
  | EPrintf _ | EReadPipe _ _ | EOpenWrite _ _ | ECloseFile _
  | EClose _ _ | ESignal => true
  | _ => false
  end.

(** The files opened for writing at line 61 whose descriptor line 73 has
    not closed yet, the latest first. *)
Fixpoint drop_one (filename : string) (held : list string) : list string :=
  match held with
  | [] => []
  | f :: rest =>
      if bool_decide (f = filename) then rest else f :: drop_one filename rest
  end.

Definition hold (held : list string) (e : event) : list string :=
  match e with
  | EOpenWrite filename true => filename :: held
  | ECloseFile filename => drop_one filename held
  | _ => held
  end.

Definition files_held (l : list event) : list string := foldl hold [] l.

(** The pids [fork] returned, in order. *)
Definition forked_pids (l : list event) : list Z :=
  omap (fun e => match e with EFork pid => Some pid | _ => None end) l.

(** The processes [kill] was called on, with the signal. *)
Definition kills (l : list event) : list (Z * Z) :=
  omap (fun e => match e with EKill pid sig => Some (pid, sig) | _ => None end) l.

(** The child that [fork] has returned and line 201 has not recorded
    yet. *)
Definition pending (x : pcpoint) : list Z :=
  match x with
  | ParentClose _ pid | ParentStore _ pid => [pid]
  | _ => []
  end.

(** The program points of the parent side of [main], with the range of
    the loop variable at each, and the ways the supervisor ends. *)
Definition sup_point (n : nat) (x : pcpoint) : Prop :=
  match x with
  | AtStart => True
  | AtLoop i => (1 <= i <= Nat.max 1 n)%nat /\ (n <= MAX_FILES + 1)%nat /\ n <> 1%nat
  | AtPipe i | AtFork i
  | ParentClose i _ | ParentStore i _ | ParentCount i _ | ParentSig i _ =>
      (1 <= i < n)%nat /\ (n <= MAX_FILES + 1)%nat
  | AtWait => (n <= MAX_FILES + 1)%nat /\ n <> 1%nat
  | Halted (Returned code) => code = 0
  | Halted (Exited code) => code = EXIT_FAILURE
  | Halted (Killed _) => True
  | _ => False
  end.

(** The number of children forked when the process is at a point. *)
Definition spawned_at (n : nat) (x : pcpoint) : option nat :=
  match x with
  | AtStart => Some O
  | AtLoop i | AtPipe i | AtFork i => Some (i - 1)%nat
  | ParentClose i _ | ParentStore i _ | ParentCount i _ | ParentSig i _ => Some i
  | AtWait => Some (n - 1)%nat
  | _ => None
  end.

(** The shape of the supervisor: its arguments, its tables of [MAX_FILES]
    entries, its program point and the number of its forks. *)
Definition shaped (args : list string) (st : world * proc) : Prop :=
  argv st.2 = args /\
  length (pipes st.2) = MAX_FILES /\ length (pids st.2) = MAX_FILES /\
  sup_point (length args) (pc st.2) /\
  (forall k, spawned_at (length args) (pc st.2) = Some k ->
             forks (log st.2) = k).

(** The [pids] table against the forks: the pids of the children forked
    and recorded fill the table from index 0, in order, the rest of the
    table is 0, and every child still to be reaped has been forked. *)
Definition recorded (st : world * proc) : Prop :=
  Forall (fun pid => 0 < pid) (forked_pids (log st.2)) /\
  children st.2 ⊆ forked_pids (log st.2) /\
  (is_halted (pc st.2) = false ->
   exists stored,
     forked_pids (log st.2) = stored ++ pending (pc st.2) /\
     pids st.2 = stored ++ replicate (MAX_FILES - length stored) 0).

(** Write ends in the descriptor table: outside lines 150-200 there is
    none, and there it is the one of the pipe just made. *)
Definition write_ends_closed (st : world * proc) : Prop :=
  is_halted (pc st.2) = false ->
  forall fd p, fdt st.2 !! fd = Some (WrEnd p) ->
    exists i, (pc st.2 = AtFork i \/ exists pid, pc st.2 = ParentClose i pid) /\
              fd = write_end (pipes st.2) (i - 1).

(** The signals sent: each is a [SIGINT] to the recorded worker of a
    ["SIG"] argument, and the worker of every ["SIG"] argument dealt with
    has been sent one. *)
Definition done_args (x : pcpoint) (n : nat) : nat :=
  match x with
  | AtLoop i | AtPipe i | AtFork i
  | ParentClose i _ | ParentStore i _ | ParentCount i _ | ParentSig i _ => (i - 1)%nat
  | AtWait => (n - 1)%nat
  | _ => O
  end.

Definition signalled (st : world * proc) : Prop :=
  is_halted (pc st.2) = false ->
  (forall i pid, pc st.2 = ParentCount i pid \/ pc st.2 = ParentSig i pid ->
     pids st.2 !! (i - 1)%nat = Some pid) /\
  (forall pid sig, (pid, sig) ∈ kills (log st.2) ->
     sig = SIGINT /\
     exists j, (1 <= j <= done_args (pc st.2) (argc st.2))%nat /\
               argv st.2 !! j = Some "SIG" /\
               pids st.2 !! (j - 1)%nat = Some pid) /\
  (forall j, (1 <= j <= done_args (pc st.2) (argc st.2))%nat ->
     argv st.2 !! j = Some "SIG" ->
     exists pid, pids st.2 !! (j - 1)%nat = Some pid /\
                 (pid, SIGINT) ∈ kills (log st.2)).

(** The supervisor at line 150, about to fork the worker of [ok.txt], in a
    world where pipe 0 has just been made. *)
Definition ex_at_fork_ok : proc :=
  Proc (AtFork 1) ["parallel"; "ok.txt"]
       (<[0%nat := (3, 4)]> (replicate MAX_FILES (0, 0)))
       (replicate MAX_FILES 0) 0 0
       {[ 3 := RdEnd 0; 4 := WrEnd 0 ]} [] [].

Definition ex_world_pipe : world :=
  World {[ "ok.txt" := "AbcAbc" ]} [] {[ 0 := [] ]}.

(** A world in which pipe 0 holds a histogram. *)
Definition ex_world_sent : world :=
  World {[ "ok.txt" := "AbcAbc" ]} [] {[ 0 := replicate 26 1 ]}.

(** The program points of the worker side of [main]. *)
Definition child_point (x : pcpoint) : bool :=
  match x with
  | ChildClose _ | ChildCmp _ | ChildOpen _ | ChildLoad _ | ChildCompute _ _
  | ChildSleep _ | ChildDone _ | ChildWaitSig _ => true
  | _ => false
  end.

(** The index [i - 1] at which the statement at a point reads or writes
    the tables [pipes] and [pids]. *)
Definition table_index (x : pcpoint) : option nat :=
  match x with
  | AtPipe i | AtFork i
  | ParentClose i _ | ParentStore i _ | ParentCount i _ | ParentSig i _ =>
      Some (i - 1)%nat
  | _ => None
  end.

(** ** The channel of a worker *)


(** A process among the others: each of its steps is taken in the world
    as the other processes have left it. *)
Inductive evolves (s : proc) : proc -> Prop :=
| evolves_refl : evolves s s
| evolves_step l w w' s1 s2 :
    evolves s s1 -> step l (w, s1) = Some (w', s2) -> evolves s s2.

Definition supervisor_state (args : list string) (s : proc) : Prop :=
  evolves (init args) s.
















(** * Facts *)

(** ** Histogram *)

Section HistogramFacts.
Import Hist.

Lemma count_loop_from (pre Data : list Z) (h : list Z) :
  foldl (fun h i => match (pre ++ Data) !! i with Some c => bump h c | None => h end)
        h (seq (length pre) (length Data))
  = foldl bump h Data.
Proof.
  revert pre h. induction Data as [|c Data IH]; intros pre h; [reflexivity|].
  cbn [length seq foldl].
  rewrite (lookup_app_r pre) by lia. rewrite Nat.sub_diag. cbn [lookup list_lookup].
  specialize (IH (pre ++ [c]) (bump h c)).
  rewrite <- app_assoc, length_app in IH. cbn [app length] in IH.
  rewrite Nat.add_1_r in IH. exact IH.
Qed.

Lemma count_loop_whole (Data h : list Z) :
  count_loop Data (Z.of_nat (length Data)) h = foldl bump h Data.
Proof.
  unfold count_loop. rewrite Nat2Z.id. exact (count_loop_from [] Data h).
Qed.

Lemma bump_length h c : length (bump h c) = length h.
Proof. unfold bump. destruct (isalpha c); [apply length_alter | reflexivity]. Qed.

Lemma foldl_bump_length Data h : length (foldl bump h Data) = length h.
Proof.
  revert h. induction Data as [|c Data IH]; intros h; [reflexivity|].
  cbn [foldl]. rewrite IH. apply bump_length.
Qed.

Lemma wrap_int_small x : - 2 ^ 31 <= x <= INT_MAX -> wrap_int x = x.
Proof.
  unfold wrap_int, INT_MAX. intros H.
  rewrite Z.mod_small; lia.
Qed.

(** The bucket a letter goes to. *)
Lemma alpha_bucket c :
  isalpha c = true ->
  exists k, (k < 26)%nat /\ Z.to_nat (tolower c - 97) = k /\ is_letter k c.
Proof.
  intros H. exists (Z.to_nat (tolower c - 97)).
  ctype_cases; try discriminate; lia.
Qed.

Lemma is_letter_alpha k c : (k < 26)%nat -> is_letter k c -> isalpha c = true.
Proof. intros Hk L. ctype_cases; try reflexivity; lia. Qed.

Lemma is_letter_bucket k c :
  (k < 26)%nat -> is_letter k c -> Z.to_nat (tolower c - 97) = k.
Proof. intros Hk L. ctype_cases; lia. Qed.

Lemma letter_count_cons i c Data :
  letter_count i (c :: Data)
  = (if decide (is_letter i c) then 1 else 0) + letter_count i Data.
Proof.
  unfold letter_count. rewrite filter_cons.
  destruct (decide (is_letter i c)); cbn [length]; lia.
Qed.

Lemma letter_count_nonneg i Data : 0 <= letter_count i Data.
Proof. unfold letter_count. lia. Qed.

Lemma bump_bound h c (m : nat) :
  (forall i n, h !! i = Some n -> 0 <= n /\ n + Z.of_nat (S m) <= INT_MAX) ->
  forall i n, bump h c !! i = Some n -> 0 <= n /\ n + Z.of_nat m <= INT_MAX.
Proof.
  intros Hh i n Hn. unfold bump in Hn. destruct (isalpha c).
  - destruct (decide (i = Z.to_nat (tolower c - 97))) as [->|Hne].
    + rewrite list_lookup_alter_eq in Hn.
      destruct (h !! Z.to_nat (tolower c - 97)) as [k|] eqn:Ek; [|discriminate].
      cbn in Hn. injection Hn as <-. destruct (Hh _ _ Ek) as [H0 H1].
      rewrite wrap_int_small by (unfold INT_MAX in *; lia). lia.
    + rewrite list_lookup_alter_ne in Hn by congruence.
      destruct (Hh _ _ Hn). lia.
  - destruct (Hh _ _ Hn). lia.
Qed.

(** The loop invariant: as long as no bucket can pass [INT_MAX], every bucket
    grows by the number of its letters. *)
Lemma foldl_bump_counts Data : forall h,
  (forall i n, h !! i = Some n -> 0 <= n /\ n + Z.of_nat (length Data) <= INT_MAX) ->
  forall i, (i < 26)%nat ->
  foldl bump h Data !! i = (fun n => n + letter_count i Data) <$> (h !! i).
Proof.
  induction Data as [|c Data IH]; intros h Hh i Hi.
  - cbn [foldl]. unfold letter_count. cbn. destruct (h !! i); cbn; f_equal; lia.
  - cbn [foldl]. rewrite IH; [|clear i Hi|exact Hi].
    + rewrite letter_count_cons. unfold bump.
      destruct (isalpha c) eqn:Ea.
      * destruct (alpha_bucket c Ea) as (k & Hk & Ek & Lk). rewrite Ek.
        destruct (decide (i = k)) as [->|Hne].
        -- rewrite list_lookup_alter_eq. rewrite decide_True by exact Lk.
           destruct (h !! k) as [n|] eqn:En; cbn; [|reflexivity].
           destruct (Hh _ _ En) as [H0 H1]. cbn [length] in H1.
           rewrite wrap_int_small by (unfold INT_MAX in *; lia). f_equal. lia.
        -- rewrite list_lookup_alter_ne by congruence.
           rewrite decide_False; [destruct (h !! i); cbn; f_equal; lia|].
           intros L. apply Hne. rewrite <- Ek. symmetry.
           apply is_letter_bucket; assumption.
      * rewrite decide_False; [destruct (h !! i); cbn; f_equal; lia|].
        intros L. rewrite (is_letter_alpha i c Hi L) in Ea. discriminate.
    + apply bump_bound. exact Hh.
Qed.

Lemma bump_nonalpha h c : isalpha c = false -> bump h c = h.
Proof. unfold bump. intros ->. reflexivity. Qed.

Lemma foldl_bump_filter Data h :
  foldl bump h (filter alpha Data) = foldl bump h Data.
Proof.
  revert h. induction Data as [|c Data IH]; intros h; [reflexivity|].
  rewrite filter_cons. destruct (decide (alpha c)) as [Ha|Ha]; cbn [foldl].
  - apply IH.
  - rewrite IH. rewrite bump_nonalpha; [reflexivity|].
    unfold alpha in Ha. destruct (isalpha c); congruence.
Qed.

Lemma sum_buckets_alter (f : Z -> Z) h : forall k n,
  h !! k = Some n -> sum_buckets (alter f k h) = sum_buckets h - n + f n.
Proof.
  unfold sum_buckets.
  induction h as [|x h IH]; intros k n Hk; [discriminate|].
  destruct k as [|k]; cbn in *.
  - injection Hk as ->. lia.
  - rewrite (IH k n Hk). lia.
Qed.

Lemma alpha_count_cons c Data :
  alpha_count (c :: Data) = (if isalpha c then 1 else 0) + alpha_count Data.
Proof.
  unfold alpha_count. rewrite filter_cons. unfold alpha at 1.
  destruct (decide (isalpha c = true)) as [->|Hn]; cbn [length]; [lia|].
  destruct (isalpha c); [congruence | lia].
Qed.

Lemma foldl_bump_sum Data : forall h,
  length h = 26%nat ->
  (forall i n, h !! i = Some n -> 0 <= n /\ n + Z.of_nat (length Data) <= INT_MAX) ->
  sum_buckets (foldl bump h Data) = sum_buckets h + alpha_count Data.
Proof.
  induction Data as [|c Data IH]; intros h Hlen Hh.
  - cbn [foldl]. unfold alpha_count. rewrite filter_nil. cbn [length]. lia.
  - cbn [foldl]. rewrite IH.
    + rewrite alpha_count_cons. unfold bump.
      destruct (isalpha c) eqn:Ea; [|lia].
      destruct (alpha_bucket c Ea) as (k & Hk & Ek & _). rewrite Ek.
      destruct (lookup_lt_is_Some_2 h k) as [n Hn]; [lia|].
      rewrite (sum_buckets_alter _ h k n Hn).
      destruct (Hh _ _ Hn) as [H0 H1]. cbn [length] in H1.
      rewrite wrap_int_small by (unfold INT_MAX in *; lia). lia.
    + rewrite bump_length. exact Hlen.
    + apply bump_bound. exact Hh.
Qed.

Lemma bump_other_case h c : bump h (other_case c) = bump h c.
Proof.
  unfold bump.
  assert (isalpha (other_case c) = isalpha c) as -> by (ctype_cases; reflexivity || lia).
  assert (tolower (other_case c) = tolower c) as -> by (ctype_cases; lia).
  reflexivity.
Qed.

Lemma foldl_bump_case_variant Data Data' :
  case_variant Data Data' -> forall h, foldl bump h Data' = foldl bump h Data.
Proof.
  induction 1 as [|c c' Data Data' Hc _ IH]; intros h; [reflexivity|].
  cbn [foldl]. rewrite IH. destruct Hc as [->| ->]; [reflexivity|].
  rewrite bump_other_case. reflexivity.
Qed.

Lemma replicate_zero_bound (m : Z) :
  0 <= m <= INT_MAX ->
  forall (i : nat) (n : Z), replicate 26 0 !! i = Some n -> 0 <= n /\ n + m <= INT_MAX.
Proof.
  intros Hm i n Hn. apply lookup_replicate in Hn as [-> _]. lia.
Qed.

End HistogramFacts.

(** C1: for a buffer [Data] whose length fits the [int] parameter [Size],
    [Histogram] returns a table of 26 buckets; bucket [i] is the number of
    bytes of [Data] that are the letter ['a' + i] in lower or upper case;
    bytes that are no letters change no bucket (dropping them from the
    buffer gives the same table); the empty buffer gives 26 zeros. *)
Theorem Histogram_buckets (Data : list Z) :
  Z.of_nat (length Data) <= INT_MAX ->
  exists h,
    Hist.Histogram true Data (Z.of_nat (length Data)) = Some h /\
    length h = 26%nat /\
    (forall i, (i < 26)%nat -> h !! i = Some (Hist.letter_count i Data)) /\
    Hist.Histogram true (filter Hist.alpha Data)
                   (Z.of_nat (length (filter Hist.alpha Data))) = Some h /\
    Hist.Histogram true [] 0 = Some (replicate 26 0).
Proof.
  intros Hsize. unfold Hist.Histogram. rewrite !count_loop_whole.
  eexists. split; [reflexivity|]. split; [|split; [|split]].
  - rewrite foldl_bump_length. apply length_replicate.
  - intros i Hi. rewrite foldl_bump_counts.
    + rewrite lookup_replicate_2 by exact Hi. reflexivity.
    + apply replicate_zero_bound. lia.
    + exact Hi.
  - rewrite foldl_bump_filter. reflexivity.
  - reflexivity.
Qed.

Lemma Histogram_buckets_witness :
  exists h,
    Hist.Histogram true [65; 98; 99; 65; 98; 33] 6 = Some h /\
    length h = 26%nat /\
    (forall i, (i < 26)%nat ->
       h !! i = Some (Hist.letter_count i [65; 98; 99; 65; 98; 33])) /\
    Hist.Histogram true (filter Hist.alpha [65; 98; 99; 65; 98; 33])
      (Z.of_nat (length (filter Hist.alpha [65; 98; 99; 65; 98; 33]))) = Some h /\
    Hist.Histogram true [] 0 = Some (replicate 26 0).
Proof.
  apply (Histogram_buckets [65; 98; 99; 65; 98; 33]). vm_compute. discriminate.
Defined.

(** C2: the 26 buckets of [Histogram] add up to the number of alphabetic
    bytes of the buffer, and a buffer in which any characters are replaced
    by their other-case counterparts has the same table. *)
Theorem Histogram_sum_case (Data : list Z) :
  Z.of_nat (length Data) <= INT_MAX ->
  exists h,
    Hist.Histogram true Data (Z.of_nat (length Data)) = Some h /\
    Hist.sum_buckets h = Hist.alpha_count Data /\
    forall Data', Hist.case_variant Data Data' ->
      Hist.Histogram true Data' (Z.of_nat (length Data')) = Some h.
Proof.
  intros Hsize. unfold Hist.Histogram. rewrite count_loop_whole.
  eexists. split; [reflexivity|]. split.
  - rewrite foldl_bump_sum.
    + assert (Hist.sum_buckets (replicate 26 0) = 0) as -> by reflexivity. lia.
    + apply length_replicate.
    + apply replicate_zero_bound. lia.
  - intros Data' Hv. rewrite count_loop_whole.
    rewrite (foldl_bump_case_variant Data Data' Hv). reflexivity.
Qed.

Lemma Histogram_sum_case_witness :
  exists h,
    Hist.Histogram true [65; 98; 99; 33] 4 = Some h /\
    Hist.sum_buckets h = Hist.alpha_count [65; 98; 99; 33] /\
    forall Data', Hist.case_variant [65; 98; 99; 33] Data' ->
      Hist.Histogram true Data' (Z.of_nat (length Data')) = Some h.
Proof.
  apply (Histogram_sum_case [65; 98; 99; 33]). vm_compute. discriminate.
Defined.

Example Histogram_AbcAbc :
  Hist.Histogram true [65; 98; 99; 65; 98; 99] 6
  = Some ([2; 2; 2] ++ replicate 23 0).
Proof. reflexivity. Qed.

Example Histogram_case_swap :
  Hist.Histogram true [97; 66; 99] 3 = Hist.Histogram true [65; 98; 67] 3.
Proof. reflexivity. Qed.

(** ** State updates *)

(** What each update does to each field of a process. *)
Lemma pc_with_pc x s : pc (with_pc x s) = x.
Proof. reflexivity. Qed.
Lemma argv_with_pc x s : argv (with_pc x s) = argv s.
Proof. reflexivity. Qed.
Lemma pipes_with_pc x s : pipes (with_pc x s) = pipes s.
Proof. reflexivity. Qed.
Lemma pids_with_pc x s : pids (with_pc x s) = pids s.
Proof. reflexivity. Qed.
Lemma numChildren_with_pc x s : numChildren (with_pc x s) = numChildren s.
Proof. reflexivity. Qed.
Lemma numTerminated_with_pc x s : numTerminated (with_pc x s) = numTerminated s.
Proof. reflexivity. Qed.
Lemma fdt_with_pc x s : fdt (with_pc x s) = fdt s.
Proof. reflexivity. Qed.
Lemma children_with_pc x s : children (with_pc x s) = children s.
Proof. reflexivity. Qed.
Lemma log_with_pc x s : log (with_pc x s) = log s.
Proof. reflexivity. Qed.
Lemma pc_emit e s : pc (emit e s) = pc s.
Proof. reflexivity. Qed.
Lemma argv_emit e s : argv (emit e s) = argv s.
Proof. reflexivity. Qed.
Lemma pipes_emit e s : pipes (emit e s) = pipes s.
Proof. reflexivity. Qed.
Lemma pids_emit e s : pids (emit e s) = pids s.
Proof. reflexivity. Qed.
Lemma numChildren_emit e s : numChildren (emit e s) = numChildren s.
Proof. reflexivity. Qed.
Lemma numTerminated_emit e s : numTerminated (emit e s) = numTerminated s.
Proof. reflexivity. Qed.
Lemma fdt_emit e s : fdt (emit e s) = fdt s.
Proof. reflexivity. Qed.
Lemma children_emit e s : children (emit e s) = children s.
Proof. reflexivity. Qed.
Lemma log_emit e s : log (emit e s) = log s ++ [e].
Proof. reflexivity. Qed.
Lemma pc_say m s : pc (say m s) = pc s.
Proof. reflexivity. Qed.
Lemma argv_say m s : argv (say m s) = argv s.
Proof. reflexivity. Qed.
Lemma pipes_say m s : pipes (say m s) = pipes s.
Proof. reflexivity. Qed.
Lemma pids_say m s : pids (say m s) = pids s.
Proof. reflexivity. Qed.
Lemma numChildren_say m s : numChildren (say m s) = numChildren s.
Proof. reflexivity. Qed.
Lemma numTerminated_say m s : numTerminated (say m s) = numTerminated s.
Proof. reflexivity. Qed.
Lemma fdt_say m s : fdt (say m s) = fdt s.
Proof. reflexivity. Qed.
Lemma children_say m s : children (say m s) = children s.
Proof. reflexivity. Qed.
Lemma log_say m s : log (say m s) = log s ++ [EPrintf m].
Proof. reflexivity. Qed.
Lemma pc_sys_exit code s : pc (sys_exit code s) = Halted (Exited code).
Proof. reflexivity. Qed.
Lemma argv_sys_exit code s : argv (sys_exit code s) = argv s.
Proof. reflexivity. Qed.
Lemma pipes_sys_exit code s : pipes (sys_exit code s) = pipes s.
Proof. reflexivity. Qed.
Lemma pids_sys_exit code s : pids (sys_exit code s) = pids s.
Proof. reflexivity. Qed.
Lemma numChildren_sys_exit code s : numChildren (sys_exit code s) = numChildren s.
Proof. reflexivity. Qed.
Lemma numTerminated_sys_exit code s : numTerminated (sys_exit code s) = numTerminated s.
Proof. reflexivity. Qed.
Lemma fdt_sys_exit code s : fdt (sys_exit code s) = fdt s.
Proof. reflexivity. Qed.
Lemma children_sys_exit code s : children (sys_exit code s) = children s.
Proof. reflexivity. Qed.
Lemma log_sys_exit code s : log (sys_exit code s) = log s.
Proof. reflexivity. Qed.
Lemma pc_sys_close fd s : pc (sys_close fd s) = pc s.
Proof. reflexivity. Qed.
Lemma argv_sys_close fd s : argv (sys_close fd s) = argv s.
Proof. reflexivity. Qed.
Lemma pipes_sys_close fd s : pipes (sys_close fd s) = pipes s.
Proof. reflexivity. Qed.
Lemma pids_sys_close fd s : pids (sys_close fd s) = pids s.
Proof. reflexivity. Qed.
Lemma numChildren_sys_close fd s : numChildren (sys_close fd s) = numChildren s.
Proof. reflexivity. Qed.
Lemma numTerminated_sys_close fd s : numTerminated (sys_close fd s) = numTerminated s.
Proof. reflexivity. Qed.
Lemma fdt_sys_close fd s : fdt (sys_close fd s) = delete fd (fdt s).
Proof. reflexivity. Qed.
Lemma children_sys_close fd s : children (sys_close fd s) = children s.
Proof. reflexivity. Qed.
Lemma log_sys_close fd s : log (sys_close fd s) = log s ++ [EClose fd (fdt s !! fd)].
Proof. reflexivity. Qed.
Lemma pc_reaped child_pid s : pc (reaped child_pid s) = pc s.
Proof. reflexivity. Qed.
Lemma argv_reaped child_pid s : argv (reaped child_pid s) = argv s.
Proof. reflexivity. Qed.
Lemma pipes_reaped child_pid s : pipes (reaped child_pid s) = pipes s.
Proof. reflexivity. Qed.
Lemma pids_reaped child_pid s : pids (reaped child_pid s) = pids s.
Proof. reflexivity. Qed.
Lemma numChildren_reaped child_pid s : numChildren (reaped child_pid s) = numChildren s.
Proof. reflexivity. Qed.
Lemma numTerminated_reaped child_pid s : numTerminated (reaped child_pid s) = numTerminated s + 1.
Proof. reflexivity. Qed.
Lemma fdt_reaped child_pid s : fdt (reaped child_pid s) = fdt s.
Proof. reflexivity. Qed.
Lemma children_reaped child_pid s : children (reaped child_pid s) = filter (fun p => p ≠ child_pid) (children s).
Proof. reflexivity. Qed.
Lemma log_reaped child_pid s : log (reaped child_pid s) = log s.
Proof. reflexivity. Qed.

Create Rewrite HintDb proc.

#[local] Hint Rewrite
  pc_with_pc argv_with_pc pipes_with_pc pids_with_pc numChildren_with_pc
  numTerminated_with_pc fdt_with_pc children_with_pc log_with_pc pc_emit
  argv_emit pipes_emit pids_emit numChildren_emit numTerminated_emit
  fdt_emit children_emit log_emit pc_say argv_say
  pipes_say pids_say numChildren_say numTerminated_say fdt_say
  children_say log_say pc_sys_exit argv_sys_exit pipes_sys_exit
  pids_sys_exit numChildren_sys_exit numTerminated_sys_exit fdt_sys_exit children_sys_exit
  log_sys_exit pc_sys_close argv_sys_close pipes_sys_close pids_sys_close
  numChildren_sys_close numTerminated_sys_close fdt_sys_close children_sys_close log_sys_close
  pc_reaped argv_reaped pipes_reaped pids_reaped numChildren_reaped
  numTerminated_reaped fdt_reaped children_reaped log_reaped
  : proc.

(** ** Runs and invariants *)

Lemma run_invariant (P : world * proc -> Prop) :
  (forall l st st', P st -> step l st = Some st' -> P st') ->
  forall ls st st', P st -> run ls st = Some st' -> P st'.
Proof.
  intros Hstep. induction ls as [|l ls IH]; intros st st' HP Hrun; cbn in Hrun.
  - injection Hrun as <-. exact HP.
  - destruct (step l st) as [st1|] eqn:E; [|discriminate].
    exact (IH st1 st' (Hstep l st st1 HP E) Hrun).
Qed.

Lemma run_app ls1 ls2 st :
  run (ls1 ++ ls2) st = match run ls1 st with Some st1 => run ls2 st1 | None => None end.
Proof.
  revert st. induction ls1 as [|l ls1 IH]; intros st; cbn; [reflexivity|].
  destruct (step l st); [apply IH | reflexivity].
Qed.

Lemma reapable_no_children s zs : children s = [] -> reapable s zs = true -> zs = [].
Proof.
  intros Hc Hr. destruct zs as [|z zs]; [reflexivity|].
  unfold reapable in Hr. rewrite Hc in Hr. cbn in Hr.
  apply andb_prop in Hr as [_ Hr]. apply andb_prop in Hr as [Hr _].
  apply bool_decide_eq_true_1 in Hr. apply elem_of_nil in Hr. contradiction.
Qed.

(** ** Configuration errors *)

Lemma spawn_free_snoc (l : list event) (x : event) :
  (forall e, e ∈ l -> is_pipe e = false /\ is_fork e = false) ->
  is_pipe x = false -> is_fork x = false ->
  forall e, e ∈ l ++ [x] -> is_pipe e = false /\ is_fork e = false.
Proof.
  intros Hl Hp Hf e He. apply elem_of_app in He as [He|He]; [auto|].
  apply list_elem_of_singleton in He as ->. auto.
Qed.

Lemma rejected_step w0 l st st' :
  rejected w0 st -> step l st = Some st' -> rejected w0 st'.
Proof.
  destruct st as [w s]. intros (Hw & Hpc & Hfd & Hch & Hlog & Harg) Hstep.
  cbn in Hw, Hpc, Hfd, Hch, Hlog, Harg. subst w.
  destruct Hpc as [Hpc | [Hpc | [sig Hpc]]];
    [| unfold step in Hstep; rewrite Hpc in Hstep; discriminate ..].
  unfold step in Hstep. rewrite Hpc in Hstep.
  destruct l; try discriminate.
  - (* Run *)
    unfold argc in Hstep.
    destruct (length (argv s) =? 1)%nat eqn:E1.
    + injection Hstep as <-. unfold rejected; cbn.
      splits; auto. apply spawn_free_snoc; auto.
    + destruct (MAX_FILES + 1 <? length (argv s))%nat eqn:E2.
      * injection Hstep as <-. unfold rejected; cbn.
        splits; auto. apply spawn_free_snoc; auto.
      * apply Nat.eqb_neq in E1. apply Nat.ltb_ge in E2. unfold MAX_FILES in *. lia.
  - (* Deliver *)
    injection Hstep as <-. unfold rejected; cbn. splits; eauto.
  - (* Sigchld *)
    destruct (reapable s zs) eqn:Er; [|discriminate].
    apply (reapable_no_children s zs Hch) in Er as ->.
    unfold sigchld in Hstep. cbn in Hstep. rewrite Hpc in Hstep. cbn in Hstep.
    injection Hstep as <-. unfold rejected; cbn. splits; auto.
    apply spawn_free_snoc; auto.
Qed.

(** C5: started with no argument ([argc] = 1) or with more than
    [MAX_FILES] arguments, [main] exits with the non-zero status
    [EXIT_FAILURE] in its first step, and at no point of any run has the
    process made a pipe or a child: the world is as it was, its
    descriptor table and its set of children are empty, and its log holds
    no [pipe] and no [fork]. *)
Theorem main_rejects_bad_argc (w0 : world) (args : list string) :
  length args = 1%nat \/ (MAX_FILES + 1 < length args)%nat ->
  (exists s code, step Run (w0, init args) = Some (w0, s) /\
                  pc s = Halted (Exited code) /\ code <> 0) /\
  forall st, reachable w0 args st ->
    st.1 = w0 /\ fdt st.2 = ∅ /\ children st.2 = [] /\
    forall e, e ∈ log st.2 -> is_pipe e = false /\ is_fork e = false.
Proof.
  intros Hargs. split.
  - unfold step, init, argc; cbn [pc argv].
    destruct (length args =? 1)%nat eqn:E1.
    + eexists _, EXIT_FAILURE. splits; [reflexivity..|discriminate].
    + destruct (MAX_FILES + 1 <? length args)%nat eqn:E2.
      * eexists _, EXIT_FAILURE. splits; [reflexivity..|discriminate].
      * apply Nat.eqb_neq in E1. apply Nat.ltb_ge in E2. unfold MAX_FILES in *. lia.
  - intros st [ls Hrun].
    assert (rejected w0 st) as (Hw & _ & Hfd & Hch & Hlog & _).
    { apply (run_invariant (rejected w0) (rejected_step w0) ls _ _) in Hrun;
        [exact Hrun|].
      unfold rejected, init; cbn. splits; auto.
      intros e He. apply elem_of_nil in He. contradiction. }
    auto.
Qed.

Lemma main_rejects_bad_argc_witness :
  (exists s code, step Run (World ∅ [] ∅, init ["parallel"])
                  = Some (World ∅ [] ∅, s) /\
                  pc s = Halted (Exited code) /\ code <> 0) /\
  forall st, reachable (World ∅ [] ∅) ["parallel"] st ->
    st.1 = World ∅ [] ∅ /\ fdt st.2 = ∅ /\ children st.2 = [] /\
    forall e, e ∈ log st.2 -> is_pipe e = false /\ is_fork e = false.
Proof.
  apply (main_rejects_bad_argc (World ∅ [] ∅) ["parallel"]).
  left. reflexivity.
Defined.

(** ** The handler *)

Lemma forks_snoc l e : forks (l ++ [e]) = (forks l + if is_fork e then 1 else 0)%nat.
Proof.
  unfold forks. rewrite List.filter_app, length_app. f_equal.
  destruct e; reflexivity.
Qed.

Lemma forks_emit e s : forks (log (emit e s)) = (forks (log s) + if is_fork e then 1 else 0)%nat.
Proof. apply forks_snoc. Qed.

(** What the body of the loop does to the counters and the tables, whatever
    the child and its status. *)
Lemma reap_child_frame child_pid child_status counts w s :
  let s' := (reap_child child_pid child_status counts w s).1.2 in
  numTerminated s' = numTerminated s + 1 /\
  numChildren s' = numChildren s /\
  children s' = filter (fun p => p ≠ child_pid) (children s) /\
  forks (log s') = forks (log s) /\
  argv s' = argv s /\ pids s' = pids s /\ pipes s' = pipes s /\
  (pc s' = pc s \/ pc s' = Halted (Exited EXIT_FAILURE)).
Proof.
  unfold reap_child. cbv zeta.
  destruct (WIFEXITED child_status);
    [destruct (find_pipe _ _ _);
       [destruct (read_counts _ _ _ _) as [[bytesRead counts'] w'];
        destruct (0 <? bytesRead); [destruct (open_create _ _)|]|]|];
    proc_simpl; rewrite ?forks_snoc; cbn [is_fork];
    splits; first [reflexivity | lia | left; reflexivity | right; reflexivity].
Qed.

(** C8: when a normally exited child is reaped whose pid is in no entry of
    the [pids] table, the handler counts the termination
    ([numTerminated] grows by one), prints the report of line 78, changes
    neither the program point (no [exit]) nor the tables, the descriptors
    or the world, and goes on with the next terminated child. *)
Theorem lookup_miss_reports_and_continues
    (child_pid code : Z) (rest : list (Z * wstatus)) (counts : list Z)
    (w : world) (s : proc) :
  is_halted (pc s) = false ->
  find_pipe child_pid (take MAX_FILES (pids s)) 0 = None ->
  exists s',
    reap_child child_pid (WExited code) counts w s = (w, s', counts) /\
    pc s' = pc s /\
    numTerminated s' = numTerminated s + 1 /\
    numChildren s' = numChildren s /\
    log s' = log s ++ [EPrintf (MCaught child_pid); EPrintf (MNotFound child_pid)] /\
    fdt s' = fdt s /\ pids s' = pids s /\ pipes s' = pipes s /\
    reap_loop ((child_pid, WExited code) :: rest) counts w s
    = reap_loop rest counts w s'.
Proof.
  intros Hrun Hmiss. cbn [reap_loop]. unfold reap_child. cbv zeta.
  cbn [WIFEXITED]. proc_simpl. rewrite Hmiss.
  eexists. split; [reflexivity|]. proc_simpl.
  rewrite Hrun, <- app_assoc. splits; reflexivity.
Qed.

Lemma lookup_miss_reports_and_continues_witness :
  exists s',
    reap_child 77 (WExited 0) (replicate 26 0) (World ∅ [] ∅)
               (with_pc AtWait (init ["parallel"; "a.txt"]))
    = (World ∅ [] ∅, s', replicate 26 0) /\
    pc s' = pc (with_pc AtWait (init ["parallel"; "a.txt"])) /\
    numTerminated s' = numTerminated (with_pc AtWait (init ["parallel"; "a.txt"])) + 1 /\
    numChildren s' = numChildren (with_pc AtWait (init ["parallel"; "a.txt"])) /\
    log s' = log (with_pc AtWait (init ["parallel"; "a.txt"]))
             ++ [EPrintf (MCaught 77); EPrintf (MNotFound 77)] /\
    fdt s' = fdt (with_pc AtWait (init ["parallel"; "a.txt"])) /\
    pids s' = pids (with_pc AtWait (init ["parallel"; "a.txt"])) /\
    pipes s' = pipes (with_pc AtWait (init ["parallel"; "a.txt"])) /\
    reap_loop [(77, WExited 0); (78, WSignaled 2)] (replicate 26 0) (World ∅ [] ∅)
              (with_pc AtWait (init ["parallel"; "a.txt"]))
    = reap_loop [(78, WSignaled 2)] (replicate 26 0) (World ∅ [] ∅) s'.
Proof.
  apply (lookup_miss_reports_and_continues 77 0 [(78, WSignaled 2)]
           (replicate 26 0) (World ∅ [] ∅)
           (with_pc AtWait (init ["parallel"; "a.txt"])));
    vm_compute; reflexivity.
Defined.

(** A read on a pipe that holds data delivers data. *)
Lemma read_counts_data fd counts w s p data :
  fdt s !! fd = Some (RdEnd p) ->
  pipebuf w !! p = Some data -> data ≠ [] ->
  exists n w',
    read_counts fd counts w s
    = (n, take 26 data ++ drop (length (take 26 data)) counts, w') /\
    (0 <? n) = true /\ files w' = files w /\ denied w' = denied w.
Proof.
  intros Hfd Hp Hd. unfold read_counts. rewrite Hfd, Hp. cbn [default].
  eexists _, _. split; [reflexivity|]. cbn [files denied]. splits; try reflexivity.
  destruct data as [|x data]; [congruence|].
  apply Z.ltb_lt. rewrite length_take. unfold id. cbn [length]. lia.
Qed.

(** C10: when the handler has received a histogram for a reaped child and
    cannot open the file it is to be saved in, the supervisor ends at once
    with [exit(EXIT_FAILURE)]: the termination is counted, no file is
    written, and the children that remain to be reaped are not looked at
    (the handler ends in the same state whatever they are). *)
Theorem persist_open_failure_exits
    (child_pid code : Z) (rest : list (Z * wstatus)) (junk : list Z)
    (w : world) (s : proc) (curPipe : nat) (p : Z) (data : list Z) :
  find_pipe child_pid (take MAX_FILES (pids s)) 0 = Some curPipe ->
  fdt s !! read_end (pipes s) curPipe = Some (RdEnd p) ->
  pipebuf w !! p = Some data -> data ≠ [] ->
  hist_name child_pid ∈ denied w ->
  exists w' s',
    sigchld junk ((child_pid, WExited code) :: rest) w s = (w', s') /\
    pc s' = Halted (Exited EXIT_FAILURE) /\
    EXIT_FAILURE <> 0 /\
    files w' = files w /\
    numTerminated s' = numTerminated s + 1 /\
    last (log s') = Some (EPrintf (MPerror "Error opening file")) /\
    sigchld junk ((child_pid, WExited code) :: rest) w s
    = sigchld junk [(child_pid, WExited code)] w s.
Proof.
  intros Hfind Hfd Hp Hd Hden.
  unfold sigchld, reap_loop, reap_child. cbv zeta. cbn [WIFEXITED].
  proc_simpl. rewrite Hfind.
  match goal with
  | |- context [read_counts ?fd ?c ?w0 ?s1] =>
      destruct (read_counts_data fd c w0 s1 p data Hfd Hp Hd)
        as (n & w' & -> & Hn & Hf & Hdn)
  end.
  rewrite Hn. unfold open_create. rewrite Hdn.
  rewrite bool_decide_eq_true_2 by exact Hden. proc_simpl. cbn [is_halted].
  eexists _, _. split; [reflexivity|]. proc_simpl. splits; try reflexivity.
  - discriminate.
  - exact Hf.
  - rewrite !last_snoc. reflexivity.
Qed.

(** ** The counters *)

Lemma step_halted l w s : is_halted (pc s) = true -> step l (w, s) = None.
Proof. unfold step. destruct (pc s); cbn; congruence. Qed.

Lemma step_deliver sig w s :
  is_halted (pc s) = false ->
  step (Deliver sig) (w, s) = Some (w, with_pc (Halted (Killed sig)) s).
Proof. unfold step. destruct (pc s); cbn; congruence. Qed.

Lemma step_sigchld junk zs w s :
  is_halted (pc s) = false ->
  step (Sigchld junk zs) (w, s)
  = if reapable s zs then Some (sigchld junk zs w s) else None.
Proof. unfold step. destruct (pc s); cbn; congruence. Qed.

Lemma filter_ne_absent (x : Z) (l : list Z) :
  x ∉ l -> filter (fun p => p ≠ x) l = l.
Proof.
  induction l as [|y l IH]; intros Hx; [reflexivity|].
  apply not_elem_of_cons in Hx as [Hne Hx].
  rewrite filter_cons_True by congruence. f_equal. exact (IH Hx).
Qed.

Lemma length_filter_ne (x : Z) (l : list Z) :
  NoDup l -> x ∈ l -> S (length (filter (fun p => p ≠ x) l)) = length l.
Proof.
  induction 1 as [|y l Hy Hl IH]; intros Hx.
  - apply elem_of_nil in Hx. contradiction.
  - rewrite filter_cons. destruct (decide (y ≠ x)) as [Hne|He].
    + cbn [length]. f_equal. apply IH.
      apply elem_of_cons in Hx as [->|Hx]; [congruence | exact Hx].
    + assert (y = x) as -> by (destruct (decide (y = x)); [assumption | contradiction]).
      cbn [length]. f_equal. f_equal. apply filter_ne_absent. exact Hy.
Qed.

(** The loop of the handler keeps the balance between the terminations
    counted and the children still to be reaped. *)
Lemma reap_loop_balance zs : forall counts w s,
  NoDup zs.*1 -> (forall z, z ∈ zs -> z.1 ∈ children s) -> NoDup (children s) ->
  let s' := (reap_loop zs counts w s).2 in
  NoDup (children s') /\
  numTerminated s' + Z.of_nat (length (children s'))
  = numTerminated s + Z.of_nat (length (children s)) /\
  forks (log s') = forks (log s) /\
  numChildren s' = numChildren s /\
  (pc s' = pc s \/ pc s' = Halted (Exited EXIT_FAILURE)).
Proof.
  induction zs as [|[child_pid child_status] zs IH]; intros counts w s Hnd Hin Hch.
  - cbn. splits; auto.
  - cbn [reap_loop].
    pose proof (reap_child_frame child_pid child_status counts w s) as Hf.
    destruct (reap_child child_pid child_status counts w s) as [[w1 s1] counts1].
    cbn in Hf. destruct Hf as (Hnt & Hnc & Hc & Hfk & _ & _ & _ & Hpc).
    assert (child_pid ∈ children s) as Hmem
        by (apply (Hin (child_pid, child_status)); left).
    assert (NoDup (children s1)) as Hnd1 by (rewrite Hc; apply NoDup_filter, Hch).
    assert (numTerminated s1 + Z.of_nat (length (children s1))
            = numTerminated s + Z.of_nat (length (children s))) as Hbal.
    { rewrite Hnt, Hc. pose proof (length_filter_ne child_pid _ Hch Hmem). lia. }
    destruct (is_halted (pc s1)) eqn:Eh.
    + cbn. splits; auto.
    + cbn in Hnd. apply NoDup_cons in Hnd as [Hnotin Hnd].
      specialize (IH counts1 w1 s1 Hnd).
      destruct IH as (I1 & I2 & I3 & I4 & I5); [|exact Hnd1|].
      * intros z Hz. rewrite Hc. apply list_elem_of_filter. split.
        -- intros Heq. apply Hnotin. rewrite <- Heq.
           apply list_elem_of_fmap. exists z. auto.
        -- apply Hin. right. exact Hz.
      * splits; [exact I1 | lia | congruence | congruence |].
        destruct I5 as [I5|I5]; [|right; exact I5].
        destruct Hpc as [Hpc|Hpc]; [left; congruence|].
        rewrite Hpc in Eh. discriminate.
Qed.

Lemma reapable_spec s zs :
  reapable s zs = true -> NoDup zs.*1 /\ forall z, z ∈ zs -> z.1 ∈ children s.
Proof.
  unfold reapable. intros H. apply andb_prop in H as [H1 H2].
  apply bool_decide_eq_true_1 in H1. split; [exact H1|].
  intros z Hz. rewrite forallb_forall in H2.
  apply list_elem_of_In in Hz. apply H2 in Hz.
  apply bool_decide_eq_true_1 in Hz. exact Hz.
Qed.

Lemma sigchld_counted junk zs w s :
  is_halted (pc s) = false -> reapable s zs = true ->
  counted (w, s) -> counted (sigchld junk zs w s).
Proof.
  intros Hrun Hr (C1 & C2 & C3 & C4). cbn [snd] in C1, C2, C3, C4.
  apply reapable_spec in Hr as [Hnd Hin].
  pose proof (reap_loop_balance zs junk w s Hnd Hin C1) as Hb.
  unfold sigchld. destruct (reap_loop zs junk w s) as [w1 s1].
  cbn [snd] in Hb. cbv zeta in Hb. destruct Hb as (B1 & B2 & B3 & B4 & B5).
  assert (is_halted (pc s1) = false -> pc s1 = pc s) as Hsame.
  { intros Hh. destruct B5 as [B5|B5]; [exact B5|]. rewrite B5 in Hh. discriminate. }
  destruct (is_halted (pc s1)) eqn:Eh; unfold counted, forked in *; proc_simpl.
  - splits; [exact B1 | lia | congruence |].
    intros c Hc. destruct B5 as [B5|B5]; [|congruence].
    rewrite Hc in Eh. rewrite <- B5, Hc in Hrun. discriminate.
  - rewrite forks_snoc. cbn [is_fork]. rewrite Nat.add_0_r.
    splits; [exact B1 | lia | |].
    + intros _. rewrite (Hsame eq_refl), B4, B3. apply C3. exact Hrun.
    + intros c Hc. rewrite Hc in Eh. discriminate.
Qed.

(** Case analysis on the tests a step makes. *)
Ltac step_branches H :=
  repeat first
    [ discriminate H
    | match type of H with
      | context [if ?b then _ else _] => destruct b eqn:?
      | context [match ?x with _ => _ end] => destruct x eqn:?
      end ].

Lemma counted_step l st st' : counted st -> step l st = Some st' -> counted st'.
Proof.
  destruct st as [w s]. intros HC Hstep.
  destruct (is_halted (pc s)) eqn:Hrun;
    [rewrite step_halted in Hstep by exact Hrun; discriminate|].
  destruct l.
  8: { rewrite step_sigchld in Hstep by exact Hrun.
       destruct (reapable s zs) eqn:Er; [|discriminate].
       injection Hstep as <-. apply sigchld_counted; assumption. }
  7: { rewrite step_deliver in Hstep by exact Hrun. injection Hstep as <-.
       destruct HC as (C1 & C2 & C3 & C4).
       unfold counted, forked in *. proc_simpl. splits; auto; [discriminate|].
       intros c Hc. discriminate. }
  all: destruct HC as (C1 & C2 & C3 & C4); specialize (C3 Hrun);
    cbn [snd] in C1, C2, C3, C4; unfold forked in *;
    unfold step, write_counts_pipe in Hstep;
    destruct (pc s) eqn:Hpc; try discriminate Hstep;
    cbv zeta in Hstep; step_branches Hstep; injection Hstep as <-;
    unfold counted, forked; proc_simpl; rewrite ?Hpc;
    rewrite ?forks_snoc; cbn [is_fork uncounted is_halted length] in *;
    splits; try first [assumption | discriminate | lia | intros; discriminate].
  - intros c [= <-].
    match goal with Hcmp : (_ <? _) = false |- _ => apply Z.ltb_ge in Hcmp end. lia.
  - match goal with Hnew : bool_decide _ = true |- _ =>
      apply bool_decide_eq_true_1 in Hnew; apply NoDup_cons; tauto
    end.
Qed.

Lemma counted_init w0 args : counted (w0, init args).
Proof.
  unfold counted, init, forked; cbn. splits.
  - apply NoDup_nil_2.
  - reflexivity.
  - reflexivity.
  - intros c Hc. discriminate.
Qed.

Lemma counted_reachable w0 args st : reachable w0 args st -> counted st.
Proof.
  intros [ls Hrun].
  exact (run_invariant counted counted_step ls _ _ (counted_init w0 args) Hrun).
Qed.

(** C3, as the code has it: [numTerminated] never exceeds the number of
    children forked; while the supervisor runs, [numChildren] is that
    number, less one between the return of [fork] and line 202; so outside
    these three statements [numTerminated <= numChildren].  At the wait
    loop of line 214 the supervisor returns 0 if the counters are equal and
    sleeps in the loop if they are not, and [main] has returned only with
    equal counters. *)
Theorem counters_invariant (w0 : world) (args : list string) (st : world * proc) :
  reachable w0 args st ->
  numTerminated st.2 <= forked st.2 /\
  (is_halted (pc st.2) = false ->
   numChildren st.2 = forked st.2 - uncounted (pc st.2)) /\
  (is_halted (pc st.2) = false -> uncounted (pc st.2) = 0 ->
   numTerminated st.2 <= numChildren st.2) /\
  (pc st.2 = AtWait ->
   (numTerminated st.2 = numChildren st.2 ->
    step Run st = Some (st.1, with_pc (Halted (Returned 0)) st.2)) /\
   (numTerminated st.2 <> numChildren st.2 ->
    step Run st = Some (st.1, emit (ESleep 1) st.2))) /\
  (forall c, pc st.2 = Halted (Returned c) ->
   numTerminated st.2 = numChildren st.2 /\ c = 0).
Proof.
  intros Hreach. destruct (counted_reachable _ _ _ Hreach) as (C1 & C2 & C3 & C4).
  destruct st as [w s]. cbn [fst snd] in *.
  assert (numTerminated s <= forked s) as Hle by lia.
  splits.
  - exact Hle.
  - exact C3.
  - intros Hrun Hu. rewrite (C3 Hrun), Hu. lia.
  - intros Hpc. unfold step. rewrite Hpc.
    assert (numTerminated s <= numChildren s) as Hnc.
    { rewrite C3 by (rewrite Hpc; reflexivity). rewrite Hpc. cbn. lia. }
    split; intros Hcmp.
    + rewrite (proj2 (Z.ltb_ge _ _)) by lia. reflexivity.
    + rewrite (proj2 (Z.ltb_lt _ _)) by lia. reflexivity.
  - exact C4.
Qed.

Lemma counters_invariant_witness :
  let st := ex_final ex_missing (World ∅ [] ∅) ["parallel"; "missing.txt"] in
  numTerminated st.2 <= forked st.2 /\
  (is_halted (pc st.2) = false ->
   numChildren st.2 = forked st.2 - uncounted (pc st.2)) /\
  (is_halted (pc st.2) = false -> uncounted (pc st.2) = 0 ->
   numTerminated st.2 <= numChildren st.2) /\
  (pc st.2 = AtWait ->
   (numTerminated st.2 = numChildren st.2 ->
    step Run st = Some (st.1, with_pc (Halted (Returned 0)) st.2)) /\
   (numTerminated st.2 <> numChildren st.2 ->
    step Run st = Some (st.1, emit (ESleep 1) st.2))) /\
  (forall c, pc st.2 = Halted (Returned c) ->
   numTerminated st.2 = numChildren st.2 /\ c = 0).
Proof.
  apply (counters_invariant (World ∅ [] ∅) ["parallel"; "missing.txt"]).
  exists ex_missing. vm_compute. reflexivity.
Defined.

(** C3 as stated fails: a worker that ends at once is counted by the
    handler before line 202 counts it as spawned, and at that point
    [numTerminated] is 1 and [numChildren] is 0. *)
Lemma counters_race :
  ~ (forall w0 args st, reachable w0 args st ->
       numTerminated st.2 <= numChildren st.2).
Proof.
  intros H.
  specialize (H (World ∅ [] ∅) ["parallel"; "missing.txt"]
                (ex_final ex_race (World ∅ [] ∅) ["parallel"; "missing.txt"])).
  assert (reachable (World ∅ [] ∅) ["parallel"; "missing.txt"]
            (ex_final ex_race (World ∅ [] ∅) ["parallel"; "missing.txt"])) as Hr
      by (exists ex_race; vm_compute; reflexivity).
  apply H in Hr. vm_compute in Hr. apply Hr. reflexivity.
Qed.

Example race_state :
  let st := ex_final ex_race (World ∅ [] ∅) ["parallel"; "missing.txt"] in
  pc st.2 = ParentClose 1 500 /\ numTerminated st.2 = 1 /\ numChildren st.2 = 0 /\
  log st.2 = [ESigaction; EPipe 0 3 4; EFork 500; EPrintf (MCaught 500);
              EPrintf (MNotFound 500); ESignal].
Proof. vm_compute. splits; reflexivity. Qed.

Lemma persist_open_failure_exits_witness :
  exists w' s',
    sigchld ex_junk [(500, WExited 0); (501, WExited 0)] ex_world_denied ex_waiting
    = (w', s') /\
    pc s' = Halted (Exited EXIT_FAILURE) /\
    EXIT_FAILURE <> 0 /\
    files w' = files ex_world_denied /\
    numTerminated s' = numTerminated ex_waiting + 1 /\
    last (log s') = Some (EPrintf (MPerror "Error opening file")) /\
    sigchld ex_junk [(500, WExited 0); (501, WExited 0)] ex_world_denied ex_waiting
    = sigchld ex_junk [(500, WExited 0)] ex_world_denied ex_waiting.
Proof.
  apply (persist_open_failure_exits 500 0 [(501, WExited 0)] ex_junk
           ex_world_denied ex_waiting 0%nat 0 (replicate 26 1)).
  - vm_compute. reflexivity.
  - vm_compute. reflexivity.
  - vm_compute. reflexivity.
  - vm_compute. discriminate.
  - refine (bool_decide_unpack _ _). vm_compute. exact I.
Defined.

(** ** A worker whose file cannot be opened *)



(** ** The file the handler writes *)

Lemma string_app_nil (b : string) : "" +:+ b = b.
Proof. reflexivity. Qed.

Lemma string_app_cons x (a b : string) : String x a +:+ b = String x (a +:+ b).
Proof. reflexivity. Qed.

Lemma string_app_assoc (a b c : string) : (a +:+ b) +:+ c = a +:+ (b +:+ c).
Proof.
  induction a as [|x a IH]; [reflexivity|].
  rewrite !string_app_cons, IH. reflexivity.
Qed.

Lemma string_app_empty (a : string) : a +:+ "" = a.
Proof.
  induction a as [|x a IH]; [reflexivity|].
  rewrite string_app_cons, IH. reflexivity.
Qed.

Lemma string_length_app (a b : string) :
  String.length (a +:+ b) = (String.length a + String.length b)%nat.
Proof.
  induction a as [|x a IH]; [reflexivity|].
  rewrite string_app_cons. cbn [String.length]. rewrite IH. reflexivity.
Qed.

Lemma sdrop_empty n : sdrop n "" = "".
Proof. destruct n; reflexivity. Qed.

Lemma sdrop_sdrop n m s : sdrop m (sdrop n s) = sdrop (n + m) s.
Proof.
  revert s. induction n as [|n IH]; intros s; [reflexivity|].
  destruct s as [|c s]; cbn; [apply sdrop_empty | apply IH].
Qed.

Lemma overwrite_sdrop d old :
  overwrite d old = d +:+ sdrop (String.length d) old.
Proof.
  revert old. induction d as [|c d IH]; intros old; [reflexivity|].
  cbn [overwrite String.length]. rewrite string_app_cons, IH.
  destruct old; [rewrite sdrop_empty|]; reflexivity.
Qed.

Lemma write_at_after acc d rest :
  write_at (String.length acc) d (acc +:+ rest) = acc +:+ overwrite d rest.
Proof.
  induction acc as [|c acc IH]; [reflexivity|].
  rewrite string_app_cons. cbn [String.length write_at].
  rewrite !string_app_cons, IH. reflexivity.
Qed.

(** The 26 writes leave the 26 lines, followed by what the file held
    beyond them. *)
Lemma write_letters_over counts ks : forall acc rest,
  foldl (write_letter counts) (acc +:+ rest, String.length acc) ks
  = let text := foldr (fun k t => hist_line k (default 0 (counts !! k)) +:+ t)
                      EmptyString ks in
    (acc +:+ text +:+ sdrop (String.length text) rest,
     String.length (acc +:+ text)).
Proof.
  induction ks as [|k ks IH]; intros acc rest; cbn [foldl foldr].
  - cbv zeta. cbn [String.length sdrop]. rewrite string_app_nil, string_app_empty.
    reflexivity.
  - unfold write_letter at 2. cbn [fst snd].
    rewrite write_at_after, overwrite_sdrop.
    rewrite <- string_length_app, <- string_app_assoc.
    rewrite IH. cbv zeta.
    rewrite sdrop_sdrop, <- string_length_app.
    rewrite !string_app_assoc. reflexivity.
Qed.

Lemma write_counts_over counts old :
  write_counts counts old
  = hist_text counts +:+ sdrop (String.length (hist_text counts)) old.
Proof.
  unfold write_counts, hist_text.
  pose proof (write_letters_over counts (seq 0 26) "" old) as H.
  rewrite string_app_nil in H. cbn [String.length] in H. rewrite H.
  reflexivity.
Qed.

Lemma write_counts_fresh counts : write_counts counts "" = hist_text counts.
Proof. rewrite write_counts_over, sdrop_empty. apply string_app_empty. Qed.


(** C6, at the input where the code departs from it: [file500.hist] is
    left from an earlier run and is longer than the new text.  Line 61 opens
    it without [O_TRUNC], so after the 26 lines of the received histogram
    the file still holds the end of the old content: it is not the 26
    lines [a=2 ... z=0]. *)
Theorem persist_over_longer_file :
  let sy := outcome sched_one_file ex_world_stale ["parallel"; "ok.txt"] in
  let received := [2; 2; 2] ++ replicate 23 0 in
  pc (sys_sup sy) = Halted (Returned 0) /\
  pc <$> (sys_kids sy !! 500) = Some (Halted (Exited 0)) /\
  String.length (hist_text received) = 104%nat /\
  files (sys_world sy) !! hist_name 500
  = Some (hist_text received
          +:+ sdrop 104 (hist_text (replicate 26 1000000))) /\
  files (sys_world sy) !! hist_name 500 <> Some (hist_text received).
Proof. vm_compute. splits; try reflexivity. discriminate. Qed.

Example persist_one_file :
  let sy := outcome sched_one_file ex_world ["parallel"; "ok.txt"] in
  pc (sys_sup sy) = Halted (Returned 0) /\
  files (sys_world sy) !! hist_name 500
  = Some (hist_text ([2; 2; 2] ++ replicate 23 0)) /\
  (map_to_list (files (sys_world sy))).*1 = ["ok.txt"; "file500.hist"] /\
  closes (RdEnd 0) (log (sys_sup sy)) = 1%nat /\
  (closes (WrEnd 0) ∘ log) <$> (sys_kids sy !! 500) = Some 1%nat.
Proof. vm_compute. splits; reflexivity. Qed.

(** The isolation of C4 on a run: the worker of the missing file exits
    with 1 and leaves no file, its sibling exits with 0 and its histogram is
    saved, and the supervisor returns 0. *)
Example missing_then_ok :
  let sy := outcome sched_missing_then_ok ex_world
                   ["parallel"; "missing.txt"; "ok.txt"] in
  pc (sys_sup sy) = Halted (Returned 0) /\
  pc <$> (sys_kids sy !! 500) = Some (Halted (Exited 1)) /\
  pc <$> (sys_kids sy !! 501) = Some (Halted (Exited 0)) /\
  files (sys_world sy) !! hist_name 500 = None /\
  files (sys_world sy) !! hist_name 501
  = Some (hist_text ([2; 2; 2] ++ replicate 23 0)).
Proof. vm_compute. splits; reflexivity. Qed.

(** ** The "SIG" worker *)

(** Interrupted, the worker of ["SIG"] has only closed the read end it
    inherited: it opened no file, sent nothing and forked nothing. *)
Lemma sig_worker_interrupted (w : world) (s : proc) (i : nat) :
  arg s i = "SIG" ->
  exists c,
    run [Run; Run; Deliver SIGINT] (w, fork_child i s) = Some (w, c) /\
    pc c = Halted (Killed SIGINT) /\
    log c = [EClose (read_end (pipes s) (i - 1))
                    (fdt s !! read_end (pipes s) (i - 1))].
Proof.
  intros Harg. unfold run, step, fork_child, arg in *. proc_simpl.
  rewrite Harg.
  rewrite bool_decide_eq_false_2 by (intros H; apply H; reflexivity).
  proc_simpl. eexists. splits; reflexivity.
Qed.

(** C7, at the input where the code departs from it: the arguments are
    ["SIG"] and a file, and the interrupt does not end the worker.  When
    [sleep(10)] returns, the worker does not exit: lines 195-197 fall
    through to the next round of the loop of line 141, where the worker
    makes a pipe and forks a process for the next argument. *)
Theorem sig_worker_timeout_forks :
  let sy := outcome sched_sig_timeout ex_world ["parallel"; "SIG"; "ok.txt"] in
  exists k,
    sys_kids sy !! 500 = Some k /\
    pc k = ParentClose 2 900 /\
    log k = [EClose 3 (Some (RdEnd 0)); ESleep 10; EPipe 1 3 5; EFork 900] /\
    forks (log k) = 1%nat /\
    children k = [900].
Proof. vm_compute. eexists. splits; reflexivity. Qed.

(** A process in the wait loop that has no child to reap and counts fewer
    terminations than children stays in the loop until a signal kills
    it. *)
Lemma wait_without_children (ls : list label) (w : world) (s : proc) st :
  pc s = AtWait -> children s = [] -> numTerminated s < numChildren s ->
  run ls (w, s) = Some st ->
  (pc st.2 = AtWait \/ exists sig, pc st.2 = Halted (Killed sig)).
Proof.
  intros Hpc Hch Hlt Hrun.
  enough ((pc st.2 = AtWait /\ children st.2 = [] /\
           numTerminated st.2 < numChildren st.2) \/
          exists sig, pc st.2 = Halted (Killed sig)) as [(H & _)|H]; [auto ..|].
  revert Hrun.
  apply (run_invariant
           (fun x => (pc x.2 = AtWait /\ children x.2 = [] /\
                      numTerminated x.2 < numChildren x.2) \/
                     exists sig, pc x.2 = Halted (Killed sig))); [|left; auto].
  clear. intros l [w s] st' [(Hpc & Hch & Hlt)|[sig Hk]] Hstep; cbn [snd] in *.
  - unfold step in Hstep. rewrite Hpc in Hstep. destruct l; try discriminate.
    + rewrite (proj2 (Z.ltb_lt _ _) Hlt) in Hstep. injection Hstep as <-.
      left. cbn. auto.
    + injection Hstep as <-. right. cbn. eauto.
    + destruct (reapable s zs) eqn:Er; [|discriminate].
      apply (reapable_no_children s zs Hch) in Er as ->.
      unfold sigchld in Hstep. cbn in Hstep. rewrite Hpc in Hstep. cbn in Hstep.
      injection Hstep as <-. left. cbn. auto.
  - unfold step in Hstep. rewrite Hk in Hstep. discriminate.
Qed.

(** After a file, the worker of ["SIG"] that is not interrupted reaches the
    wait loop with the supervisor's count of one child, which is not its
    own: it never exits. *)
Example sig_worker_timeout_waits :
  let sy := outcome sched_file_then_sig_timeout ex_world
                   ["parallel"; "ok.txt"; "SIG"] in
  exists k,
    sys_kids sy !! 501 = Some k /\
    pc k = AtWait /\ children k = [] /\
    numTerminated k = 0 /\ numChildren k = 1.
Proof. vm_compute. eexists. splits; reflexivity. Qed.

(** ** Closing the ends of the pipes *)

(** C9, at the inputs where the code departs from it.  With the argument
    ["SIG"] and the worker interrupted, the supervisor returns from [main]
    without a [close] of the read end (the branch of line 80 has none) and
    the worker ends without a [close] of its write end.  With a file that
    cannot be opened and the handler running before line 201, the lookup
    finds no entry and the supervisor returns with the read end open as
    well. *)
Theorem read_end_left_open :
  (let sy := outcome sched_sig_interrupted ex_world ["parallel"; "SIG"] in
   pc (sys_sup sy) = Halted (Returned 0) /\
   closes (RdEnd 0) (log (sys_sup sy)) = 0%nat /\
   fdt (sys_sup sy) !! 3 = Some (RdEnd 0) /\
   pc <$> (sys_kids sy !! 500) = Some (Halted (Killed SIGINT)) /\
   (closes (WrEnd 0) ∘ log) <$> (sys_kids sy !! 500) = Some 0%nat) /\
  (let sy := outcome sched_lookup_miss ex_world ["parallel"; "missing.txt"] in
   pc (sys_sup sy) = Halted (Returned 0) /\
   closes (RdEnd 0) (log (sys_sup sy)) = 0%nat /\
   fdt (sys_sup sy) !! 3 = Some (RdEnd 0)).
Proof. vm_compute. splits; reflexivity. Qed.

(** * Further properties *)

(** ** Histogram: order, concatenation, bounds, the [Size] parameter *)

Section HistogramMore.
Import Hist.

Lemma alter_alter_swap (f : Z -> Z) (i j : nat) (h : list Z) :
  alter f i (alter f j h) = alter f j (alter f i h).
Proof.
  apply list_eq. intros k. rewrite !list_lookup_alter.
  repeat case_decide; subst; rewrite ?list_lookup_alter_eq;
    first [reflexivity | congruence].
Qed.

Lemma bump_swap h a b : bump (bump h a) b = bump (bump h b) a.
Proof.
  unfold bump. destruct (isalpha a), (isalpha b); try reflexivity.
  apply alter_alter_swap.
Qed.

Lemma foldl_bump_permutation Data Data' :
  Data ≡ₚ Data' -> forall h, foldl bump h Data = foldl bump h Data'.
Proof.
  induction 1 as [|c l l' _ IH|a b l|l1 l2 l3 _ IH1 _ IH2]; intros h.
  - reflexivity.
  - cbn [foldl]. apply IH.
  - cbn [foldl]. rewrite bump_swap. reflexivity.
  - rewrite IH1. apply IH2.
Qed.

Lemma letter_count_app i A B :
  letter_count i (A ++ B) = letter_count i A + letter_count i B.
Proof. unfold letter_count. rewrite filter_app, length_app. lia. Qed.

Lemma letter_count_le i Data : letter_count i Data <= Z.of_nat (length Data).
Proof. unfold letter_count. pose proof (length_filter (is_letter i) Data). lia. Qed.

(** The buckets of a buffer that fits an [int]. *)
Lemma foldl_bump_zero Data i :
  Z.of_nat (length Data) <= INT_MAX -> (i < 26)%nat ->
  foldl bump (replicate 26 0) Data !! i = Some (letter_count i Data).
Proof.
  intros Hsize Hi. rewrite foldl_bump_counts.
  - rewrite lookup_replicate_2 by exact Hi. reflexivity.
  - apply replicate_zero_bound. lia.
  - exact Hi.
Qed.

Lemma count_loop_same (Data Data' : list Z) (n : nat) (h : list Z) :
  (forall i, (i < n)%nat -> Data !! i = Data' !! i) ->
  foldl (fun h i => match Data !! i with Some c => bump h c | None => h end)
        h (seq 0 n)
  = foldl (fun h i => match Data' !! i with Some c => bump h c | None => h end)
          h (seq 0 n).
Proof.
  revert h. induction n as [|n IH]; intros h Hsame; [reflexivity|].
  rewrite seq_S, !foldl_app. cbn [foldl Nat.add].
  rewrite IH by (intros i Hi; apply Hsame; lia).
  rewrite Hsame by lia. reflexivity.
Qed.

(** The loop reads the bytes at the indices below [Size] only. *)
Lemma count_loop_take (Data : list Z) (Size : Z) (h : list Z) :
  0 <= Size <= Z.of_nat (length Data) ->
  count_loop Data Size h = foldl bump h (take (Z.to_nat Size) Data).
Proof.
  intros HS.
  rewrite <- (count_loop_whole (take (Z.to_nat Size) Data) h).
  unfold count_loop. rewrite length_take_le by lia. rewrite Z2Nat.id by lia.
  apply count_loop_same. intros i Hi. rewrite lookup_take_lt by exact Hi.
  reflexivity.
Qed.

End HistogramMore.

(** The table does not depend on the order of the bytes. *)
Theorem Histogram_permutation (mem : bool) (Data Data' : list Z) :
  Data ≡ₚ Data' ->
  Hist.Histogram mem Data (Z.of_nat (length Data))
  = Hist.Histogram mem Data' (Z.of_nat (length Data')).
Proof.
  intros Hp. unfold Hist.Histogram. destruct mem; [|reflexivity].
  rewrite !count_loop_whole. f_equal. apply foldl_bump_permutation, Hp.
Qed.

Lemma Histogram_permutation_witness :
  Hist.Histogram true [104; 105; 33; 72] (Z.of_nat (length [104; 105; 33; 72]))
  = Hist.Histogram true [72; 33; 105; 104] (Z.of_nat (length [72; 33; 105; 104])).
Proof.
  apply (Histogram_permutation true [104; 105; 33; 72] [72; 33; 105; 104]).
  change [72; 33; 105; 104] with (reverse [104; 105; 33; 72]).
  symmetry. apply reverse_Permutation.
Defined.

(** The table of a concatenation is the bucketwise sum of the tables of
    its parts. *)
Theorem Histogram_app (A B : list Z) :
  Z.of_nat (length (A ++ B)) <= INT_MAX ->
  exists hA hB hAB,
    Hist.Histogram true A (Z.of_nat (length A)) = Some hA /\
    Hist.Histogram true B (Z.of_nat (length B)) = Some hB /\
    Hist.Histogram true (A ++ B) (Z.of_nat (length (A ++ B))) = Some hAB /\
    forall i, (i < 26)%nat ->
      exists a b, hA !! i = Some a /\ hB !! i = Some b /\
                  hAB !! i = Some (a + b).
Proof.
  intros Hsize. unfold Hist.Histogram. rewrite !count_loop_whole.
  eexists _, _, _. splits; try reflexivity.
  intros i Hi. rewrite length_app in Hsize.
  exists (Hist.letter_count i A), (Hist.letter_count i B).
  rewrite !foldl_bump_zero by (rewrite ?length_app; lia).
  rewrite letter_count_app. splits; reflexivity.
Qed.

Lemma Histogram_app_witness :
  exists hA hB hAB,
    Hist.Histogram true [97; 66] (Z.of_nat (length [97; 66])) = Some hA /\
    Hist.Histogram true [98; 33] (Z.of_nat (length [98; 33])) = Some hB /\
    Hist.Histogram true ([97; 66] ++ [98; 33])
                   (Z.of_nat (length ([97; 66] ++ [98; 33]))) = Some hAB /\
    forall i, (i < 26)%nat ->
      exists a b, hA !! i = Some a /\ hB !! i = Some b /\
                  hAB !! i = Some (a + b).
Proof.
  apply (Histogram_app [97; 66] [98; 33]). vm_compute. discriminate.
Defined.

(** No bucket is negative, and none exceeds the number of bytes: the
    counters do not overflow. *)
Theorem Histogram_bucket_range (Data h : list Z) (i : nat) (n : Z) :
  Z.of_nat (length Data) <= INT_MAX ->
  Hist.Histogram true Data (Z.of_nat (length Data)) = Some h ->
  h !! i = Some n ->
  0 <= n <= Z.of_nat (length Data).
Proof.
  intros Hsize Hh Hn. unfold Hist.Histogram in Hh.
  rewrite count_loop_whole in Hh. injection Hh as <-.
  assert (i < 26)%nat as Hi.
  { apply lookup_lt_Some in Hn. rewrite foldl_bump_length in Hn.
    exact Hn. }
  rewrite foldl_bump_zero in Hn by assumption. injection Hn as <-.
  split; [apply letter_count_nonneg | apply letter_count_le].
Qed.

Lemma Histogram_bucket_range_witness : 0 <= 2 <= Z.of_nat (length [65; 97; 33]).
Proof.
  apply (Histogram_bucket_range [65; 97; 33] ([2] ++ replicate 25 0) 0 2).
  - vm_compute. discriminate.
  - reflexivity.
  - reflexivity.
Defined.

(** [Size] bounds the scan: with [Size <= 0] the loop body never runs and
    the table is all zeros, whatever the buffer holds; with [Size] below
    the length of the buffer only the first [Size] bytes are counted. *)
Theorem Histogram_Size (Data : list Z) (Size : Z) :
  Size <= Z.of_nat (length Data) ->
  (Size <= 0 -> Hist.Histogram true Data Size = Some (replicate 26 0)) /\
  (0 <= Size ->
   Hist.Histogram true Data Size
   = Hist.Histogram true (take (Z.to_nat Size) Data)
                    (Z.of_nat (length (take (Z.to_nat Size) Data)))).
Proof.
  intros HS. unfold Hist.Histogram. split.
  - intros Hneg. unfold Hist.count_loop.
    assert (Z.to_nat Size = O) as -> by lia. reflexivity.
  - intros Hpos. rewrite count_loop_take by lia.
    rewrite count_loop_whole. reflexivity.
Qed.

Lemma Histogram_Size_witness :
  (2 <= 0 -> Hist.Histogram true [97; 98; 99] 2 = Some (replicate 26 0)) /\
  (0 <= 2 ->
   Hist.Histogram true [97; 98; 99] 2
   = Hist.Histogram true (take (Z.to_nat 2) [97; 98; 99])
                    (Z.of_nat (length (take (Z.to_nat 2) [97; 98; 99])))).
Proof. apply (Histogram_Size [97; 98; 99] 2). vm_compute. discriminate. Defined.

(** ** The lookup of lines 43-51 *)

Lemma find_pipe_Some child_pid table : forall i k,
  find_pipe child_pid table i = Some k ->
  (i <= k)%nat /\ table !! (k - i)%nat = Some child_pid /\
  forall j, (j < k - i)%nat -> table !! j <> Some child_pid.
Proof.
  induction table as [|p rest IH]; intros i k H; cbn in H; [discriminate|].
  destruct (Z.eqb_spec child_pid p) as [->|Hne].
  - injection H as <-. rewrite Nat.sub_diag. splits; [lia | reflexivity | lia].
  - apply IH in H as (Hle & Hk & Hmin).
    replace (k - i)%nat with (S (k - S i)) by lia.
    splits; [lia | exact Hk |].
    intros [|j] Hj; cbn; [congruence | apply Hmin; lia].
Qed.

Lemma find_pipe_None child_pid table : forall i,
  find_pipe child_pid table i = None <-> child_pid ∉ table.
Proof.
  induction table as [|p rest IH]; intros i; cbn.
  - split; [intros _; apply not_elem_of_nil | reflexivity].
  - destruct (Z.eqb_spec child_pid p) as [->|Hne].
    + split; [discriminate | intros H; exfalso; apply H; left].
    + rewrite IH, not_elem_of_cons. tauto.
Qed.

(** The lookup returns the first index of the table that holds the pid,
    and fails exactly when no entry holds it. *)
Theorem find_pipe_first (child_pid : Z) (table : list Z) :
  match find_pipe child_pid table 0 with
  | Some k => table !! k = Some child_pid /\
              forall j, (j < k)%nat -> table !! j <> Some child_pid
  | None => child_pid ∉ table
  end.
Proof.
  destruct (find_pipe child_pid table 0) as [k|] eqn:E.
  - apply find_pipe_Some in E as (_ & Hk & Hmin).
    rewrite Nat.sub_0_r in Hk, Hmin. auto.
  - apply find_pipe_None in E. exact E.
Qed.

(** After [pids[k] = pid] (line 201) the lookup of [pid] gives [k],
    provided no earlier entry holds the same pid. *)
Theorem find_pipe_stored (child_pid : Z) (table : list Z) (k : nat) :
  (k < length table)%nat -> child_pid ∉ take k table ->
  find_pipe child_pid (<[k := child_pid]> table) 0 = Some k.
Proof.
  intros Hk Hfresh.
  destruct (find_pipe child_pid (<[k := child_pid]> table) 0) as [k'|] eqn:E.
  - apply find_pipe_Some in E as (_ & Hk' & Hmin).
    rewrite Nat.sub_0_r in Hk', Hmin. f_equal.
    destruct (Nat.lt_trichotomy k' k) as [Hlt|[->|Hgt]]; [|reflexivity|].
    + exfalso. apply Hfresh. rewrite list_lookup_insert_ne in Hk' by lia.
      apply list_elem_of_lookup. exists k'. rewrite lookup_take_lt by exact Hlt.
      exact Hk'.
    + exfalso. apply (Hmin k Hgt). apply list_lookup_insert_eq. exact Hk.
  - apply find_pipe_None in E. exfalso. apply E.
    apply list_elem_of_lookup. exists k. apply list_lookup_insert_eq. exact Hk.
Qed.

Lemma find_pipe_stored_witness :
  find_pipe 500 (<[2%nat := 500]> [498; 499; 0; 0]) 0 = Some 2%nat.
Proof.
  apply (find_pipe_stored 500 [498; 499; 0; 0] 2).
  - vm_compute. lia.
  - refine (bool_decide_unpack _ _). vm_compute. exact I.
Defined.

(** ** What the handler leaves alone *)

Lemma read_counts_world fd counts w s :
  files (read_counts fd counts w s).2 = files w /\
  denied (read_counts fd counts w s).2 = denied w.
Proof.
  unfold read_counts. destruct (fdt s !! fd) as [[p|p]|]; split; reflexivity.
Qed.

(** The case analysis of the loop body. *)
Ltac reap_cases :=
  unfold reap_child; cbv zeta;
  match goal with
  | |- context [WIFEXITED ?st] => destruct (WIFEXITED st) eqn:?
  end;
  [ match goal with
    | |- context [find_pipe ?a ?b ?c] => destruct (find_pipe a b c) eqn:?
    end;
    [ match goal with
      | |- context [read_counts ?fd ?c ?w ?s] =>
          let Hw := fresh "Hw" in
          let Hw1 := fresh "Hw1" in
          let Hw2 := fresh "Hw2" in
          let b := fresh "bytesRead" in
          let c' := fresh "counts'" in
          let w' := fresh "w'" in
          pose proof (read_counts_world fd c w s) as Hw;
          destruct (read_counts fd c w s) as [[b c'] w'];
          cbn [fst snd] in Hw; destruct Hw as [Hw1 Hw2];
          destruct (0 <? b) eqn:?
      end;
      [ unfold open_create;
        match goal with
        | |- context [bool_decide ?P] => destruct (bool_decide P) eqn:?
        end
      | ]
    | ]
  | ];
  proc_simpl.

Ltac solve_trace :=
  rewrite <- ?app_assoc; eexists; split; [reflexivity|];
  repeat constructor.

Lemma reap_child_trace child_pid child_status counts w s :
  let r := reap_child child_pid child_status counts w s in
  (exists evs, log r.1.2 = log s ++ evs /\
               Forall (fun e => handler_event e = true) evs) /\
  fdt r.1.2 ⊆ fdt s /\
  denied r.1.1 = denied w /\
  (forall name, name <> hist_name child_pid ->
                files r.1.1 !! name = files w !! name) /\
  (WIFEXITED child_status = false ->
   r.1.1 = w /\ fdt r.1.2 = fdt s /\ pc r.1.2 = pc s) /\
  (hist_name child_pid ∉ denied w -> pc r.1.2 = pc s).
Proof.
  reap_cases; splits;
    try solve_trace;
    try reflexivity; try assumption; try apply delete_subseteq;
    try (intros; discriminate);
    try (intros name Hname; rewrite ?lookup_insert_ne by congruence;
         congruence);
    try (intros; splits; reflexivity).
  intros Hden. exfalso. apply Hden.
  match goal with Hd : denied _ = denied w |- _ => rewrite <- Hd end.
  match goal with H : bool_decide _ = true |- _ =>
    apply bool_decide_eq_true_1 in H; exact H end.
Qed.

Lemma reap_loop_trace zs : forall counts w s,
  let r := reap_loop zs counts w s in
  (exists evs, log r.2 = log s ++ evs /\
               Forall (fun e => handler_event e = true) evs) /\
  fdt r.2 ⊆ fdt s /\
  denied r.1 = denied w /\
  (forall name,
     (forall z, z ∈ zs -> WIFEXITED z.2 = true -> name <> hist_name z.1) ->
     files r.1 !! name = files w !! name) /\
  (Forall (fun z => WIFEXITED z.2 = false) zs ->
   r.1 = w /\ fdt r.2 = fdt s /\ pc r.2 = pc s).
Proof.
  induction zs as [|[child_pid child_status] zs IH]; intros counts w s; cbv zeta.
  - cbn [reap_loop fst snd].
    splits; [| reflexivity | reflexivity | intros; reflexivity
             | intros; splits; reflexivity].
    exists []. rewrite app_nil_r. split; [reflexivity | constructor].
  - cbn [reap_loop].
    pose proof (reap_child_trace child_pid child_status counts w s) as Ht.
    destruct (reap_child child_pid child_status counts w s) as [[w1 s1] counts1].
    cbv zeta in Ht. cbn [fst snd] in Ht.
    destruct Ht as ((evs & Hlog & Hevs) & Hfd & Hden & Hfiles & Hsig & _).
    assert (forall name,
              (forall z, z ∈ (child_pid, child_status) :: zs ->
                         WIFEXITED z.2 = true -> name <> hist_name z.1) ->
              files w1 !! name = files w !! name) as Hfiles1.
    { intros name Hname. destruct (WIFEXITED child_status) eqn:Ex.
      - apply Hfiles. apply (Hname (child_pid, child_status)); [left | exact Ex].
      - destruct (Hsig eq_refl) as (-> & _). reflexivity. }
    destruct (is_halted (pc s1)) eqn:Eh; cbn [fst snd].
    + splits.
      * exists evs. auto.
      * exact Hfd.
      * exact Hden.
      * exact Hfiles1.
      * intros Hall. apply Forall_cons in Hall as [Hz _]. cbn in Hz.
        apply (Hsig Hz).
    + specialize (IH counts1 w1 s1). cbv zeta in IH.
      destruct IH as ((evs' & Hlog' & Hevs') & Hfd' & Hden' & Hfiles' & Hsig').
      splits.
      * exists (evs ++ evs'). rewrite Hlog', Hlog, app_assoc. split; [reflexivity|].
        apply Forall_app. auto.
      * etransitivity; eassumption.
      * congruence.
      * intros name Hname. rewrite Hfiles'.
        -- apply Hfiles1. exact Hname.
        -- intros z Hz. apply Hname. right. exact Hz.
      * intros Hall. apply Forall_cons in Hall as [Hz Hall]. cbn in Hz.
        destruct (Hsig Hz) as (-> & E1 & E2).
        destruct (Hsig' Hall) as (-> & E3 & E4).
        splits; congruence.
Qed.

Lemma filter_filter_ne (x : Z) (xs : list Z) (l : list Z) :
  filter (fun p => p ∉ xs) (filter (fun p => p ≠ x) l)
  = filter (fun p => p ∉ x :: xs) l.
Proof.
  induction l as [|y l IH]; [reflexivity|].
  rewrite (filter_cons (fun p => p ≠ x)), (filter_cons (fun p => p ∉ x :: xs)).
  destruct (decide (y ≠ x)) as [Hne|Heq].
  - rewrite filter_cons. destruct (decide (y ∉ xs)) as [Hn|Hi].
    + rewrite decide_True by (rewrite not_elem_of_cons; auto). f_equal. exact IH.
    + rewrite decide_False by (rewrite not_elem_of_cons; tauto). exact IH.
  - rewrite decide_False; [exact IH|].
    rewrite not_elem_of_cons. tauto.
Qed.

(** Without a failing [open] the loop goes through all the children. *)
Lemma reap_loop_all zs : forall counts w s,
  is_halted (pc s) = false ->
  Forall (fun z => WIFEXITED z.2 = false \/ hist_name z.1 ∉ denied w) zs ->
  let r := reap_loop zs counts w s in
  pc r.2 = pc s /\
  numTerminated r.2 = numTerminated s + Z.of_nat (length zs) /\
  children r.2 = filter (fun p => p ∉ zs.*1) (children s) /\
  numChildren r.2 = numChildren s /\
  argv r.2 = argv s /\ pids r.2 = pids s /\ pipes r.2 = pipes s.
Proof.
  induction zs as [|[child_pid child_status] zs IH]; intros counts w s Hrun Hall;
    cbv zeta.
  - cbn [reap_loop fst snd length fmap list_fmap]. splits; try reflexivity; [lia|].
    symmetry. clear. induction (children s) as [|y l IH]; [reflexivity|].
    rewrite filter_cons_True by apply not_elem_of_nil. f_equal. exact IH.
  - cbn [reap_loop]. apply Forall_cons in Hall as [Hz Hall]. cbn [fst snd] in Hz.
    pose proof (reap_child_trace child_pid child_status counts w s) as Ht.
    pose proof (reap_child_frame child_pid child_status counts w s) as Hf.
    destruct (reap_child child_pid child_status counts w s) as [[w1 s1] counts1].
    cbv zeta in Ht, Hf. cbn [fst snd] in Ht, Hf.
    destruct Ht as (_ & _ & Hden & _ & Hsig & Hpc).
    destruct Hf as (Hnt & Hnc & Hch & _ & Hav & Hpd & Hpp & _).
    assert (pc s1 = pc s) as Hpc1
        by (destruct Hz as [Hz|Hz]; [apply (Hsig Hz) | exact (Hpc Hz)]).
    rewrite Hpc1, Hrun.
    specialize (IH counts1 w1 s1). cbv zeta in IH.
    destruct IH as (I1 & I2 & I3 & I4 & I5 & I6 & I7).
    + congruence.
    + rewrite Hden. exact Hall.
    + splits; try congruence.
      * rewrite I2, Hnt. cbn [length]. lia.
      * rewrite I3, Hch. cbn [fmap list_fmap fst]. apply filter_filter_ne.
Qed.

Lemma forked_pids_handler l evs :
  Forall (fun e => handler_event e = true) evs ->
  forked_pids (l ++ evs) = forked_pids l.
Proof.
  intros H. unfold forked_pids. rewrite omap_app.
  induction H as [|e evs He _ IH]; [apply app_nil_r|].
  destruct e; try discriminate; exact IH.
Qed.

Lemma kills_handler l evs :
  Forall (fun e => handler_event e = true) evs ->
  kills (l ++ evs) = kills l.
Proof.
  intros H. unfold kills. rewrite omap_app.
  induction H as [|e evs He _ IH]; [apply app_nil_r|].
  destruct e; try discriminate; exact IH.
Qed.

Lemma pipes_made_handler l evs :
  Forall (fun e => handler_event e = true) evs ->
  List.filter is_pipe (l ++ evs) = List.filter is_pipe l.
Proof.
  intros H. rewrite List.filter_app.
  induction H as [|e evs He _ IH]; [apply app_nil_r|].
  destruct e; try discriminate; exact IH.
Qed.

(** Every file the loop body opens at line 61 it closes at line 73. *)
Lemma reap_child_held child_pid child_status counts w s :
  exists evs, log (reap_child child_pid child_status counts w s).1.2 = log s ++ evs /\
              forall held, foldl hold held evs = held.
Proof.
  reap_cases; rewrite <- ?app_assoc; eexists; (split; [reflexivity|]);
    intros held; cbn [app foldl hold drop_one];
    rewrite ?bool_decide_eq_true_2 by reflexivity; reflexivity.
Qed.

Lemma reap_loop_held zs : forall counts w s,
  exists evs, log (reap_loop zs counts w s).2 = log s ++ evs /\
              forall held, foldl hold held evs = held.
Proof.
  induction zs as [|[child_pid child_status] zs IH]; intros counts w s.
  - exists []. cbn [reap_loop snd]. rewrite app_nil_r. split; reflexivity.
  - cbn [reap_loop].
    destruct (reap_child_held child_pid child_status counts w s) as (evs & Hlog & Hevs).
    destruct (reap_child child_pid child_status counts w s) as [[w1 s1] counts1].
    cbn [fst snd] in Hlog.
    destruct (is_halted (pc s1)); cbn [snd]; [exists evs; auto|].
    destruct (IH counts1 w1 s1) as (evs' & Hlog' & Hevs').
    exists (evs ++ evs'). rewrite Hlog', Hlog, app_assoc. split; [reflexivity|].
    intros held. rewrite foldl_app, Hevs, Hevs'. reflexivity.
Qed.

Lemma sigchld_held junk zs w s :
  files_held (log (sigchld junk zs w s).2) = files_held (log s).
Proof.
  unfold sigchld, files_held.
  destruct (reap_loop_held zs junk w s) as (evs & Hlog & Hevs).
  destruct (reap_loop zs junk w s) as [w1 s1]. cbn [snd] in Hlog.
  destruct (is_halted (pc s1)); cbn [snd]; proc_simpl;
    rewrite Hlog, ?foldl_app, Hevs; reflexivity.
Qed.

(** What one run of the handler changes, whatever it reaps: the log grows
    by events of the handler only, the descriptor table only loses
    entries, and a file keeps its content unless it is the [file<pid>.hist]
    of a normally exited child among those reaped. *)
Lemma sigchld_trace junk zs w s :
  let r := sigchld junk zs w s in
  (exists evs, log r.2 = log s ++ evs /\
               Forall (fun e => handler_event e = true) evs) /\
  fdt r.2 ⊆ fdt s /\ denied r.1 = denied w /\
  (forall name,
     (forall z, z ∈ zs -> WIFEXITED z.2 = true -> name <> hist_name z.1) ->
     files r.1 !! name = files w !! name) /\
  argv r.2 = argv s /\ pids r.2 = pids s /\ pipes r.2 = pipes s /\
  numChildren r.2 = numChildren s /\ children r.2 ⊆ children s.
Proof.
  cbv zeta. unfold sigchld.
  pose proof (reap_loop_trace zs junk w s) as Ht.
  assert (argv (reap_loop zs junk w s).2 = argv s /\
          pids (reap_loop zs junk w s).2 = pids s /\
          pipes (reap_loop zs junk w s).2 = pipes s /\
          numChildren (reap_loop zs junk w s).2 = numChildren s /\
          children (reap_loop zs junk w s).2 ⊆ children s) as Hf.
  { clear Ht. generalize junk as counts. revert w s.
    induction zs as [|[child_pid child_status] zs IH]; intros w s counts.
    - cbn [reap_loop snd]. splits; reflexivity.
    - cbn [reap_loop].
      pose proof (reap_child_frame child_pid child_status counts w s) as Hf.
      destruct (reap_child child_pid child_status counts w s) as [[w1 s1] counts1].
      cbv zeta in Hf. cbn [fst snd] in Hf.
      destruct Hf as (_ & Hnc & Hch & _ & Hav & Hpd & Hpp & _).
      assert (children s1 ⊆ children s) as Hsub
          by (rewrite Hch; apply list_subseteq_filter).
      destruct (is_halted (pc s1)); cbn [snd].
      + splits; assumption.
      + destruct (IH w1 s1 counts1) as (I1 & I2 & I3 & I4 & I5).
        splits; try congruence. etransitivity; eassumption. }
  destruct (reap_loop zs junk w s) as [w1 s1]. cbv zeta in Ht.
  cbn [fst snd] in Ht, Hf.
  destruct Ht as ((evs & Hlog & Hevs) & Hfd & Hden & Hfiles & _).
  destruct Hf as (F1 & F2 & F3 & F4 & F5).
  destruct (is_halted (pc s1)); cbn [fst snd]; proc_simpl.
  - splits; try assumption. exists evs. auto.
  - splits; try assumption. exists (evs ++ [ESignal]).
    rewrite Hlog, app_assoc. split; [reflexivity|].
    apply Forall_app. split; [exact Hevs | repeat constructor].
Qed.

(** The handler drains all the terminations pending: unless the [open] of
    line 61 fails, its loop goes through every child [waitpid] returns,
    counts each, leaves the program point of the supervisor and its tables
    as they were, and ends by registering the handler again. *)
Theorem handler_drains_all (junk : list Z) (zs : list (Z * wstatus))
    (w : world) (s : proc) :
  is_halted (pc s) = false ->
  Forall (fun z => WIFEXITED z.2 = false \/ hist_name z.1 ∉ denied w) zs ->
  pc (sigchld junk zs w s).2 = pc s /\
  numTerminated (sigchld junk zs w s).2 = numTerminated s + Z.of_nat (length zs) /\
  children (sigchld junk zs w s).2 = filter (fun p => p ∉ zs.*1) (children s) /\
  numChildren (sigchld junk zs w s).2 = numChildren s /\
  pids (sigchld junk zs w s).2 = pids s /\
  pipes (sigchld junk zs w s).2 = pipes s /\
  last (log (sigchld junk zs w s).2) = Some ESignal.
Proof.
  intros Hrun Hall. unfold sigchld.
  pose proof (reap_loop_all zs junk w s Hrun Hall) as Ha.
  destruct (reap_loop zs junk w s) as [w1 s1]. cbv zeta in Ha. cbn [fst snd] in Ha.
  destruct Ha as (A1 & A2 & A3 & A4 & A5 & A6 & A7).
  rewrite A1, Hrun. cbn [snd]. proc_simpl.
  splits; try assumption. apply last_snoc.
Qed.

Lemma handler_drains_all_witness :
  pc (sigchld ex_junk [(500, WExited 0); (501, WSignaled 2)] ex_world ex_waiting).2
  = pc ex_waiting /\
  numTerminated (sigchld ex_junk [(500, WExited 0); (501, WSignaled 2)]
                         ex_world ex_waiting).2
  = numTerminated ex_waiting
    + Z.of_nat (length [(500, WExited 0); (501, WSignaled 2)]) /\
  children (sigchld ex_junk [(500, WExited 0); (501, WSignaled 2)]
                    ex_world ex_waiting).2
  = filter (fun p => p ∉ [(500, WExited 0); (501, WSignaled 2)].*1)
           (children ex_waiting) /\
  numChildren (sigchld ex_junk [(500, WExited 0); (501, WSignaled 2)]
                       ex_world ex_waiting).2 = numChildren ex_waiting /\
  pids (sigchld ex_junk [(500, WExited 0); (501, WSignaled 2)]
                ex_world ex_waiting).2 = pids ex_waiting /\
  pipes (sigchld ex_junk [(500, WExited 0); (501, WSignaled 2)]
                 ex_world ex_waiting).2 = pipes ex_waiting /\
  last (log (sigchld ex_junk [(500, WExited 0); (501, WSignaled 2)]
                     ex_world ex_waiting).2) = Some ESignal.
Proof.
  apply (handler_drains_all ex_junk [(500, WExited 0); (501, WSignaled 2)]
           ex_world ex_waiting).
  - reflexivity.
  - apply Forall_cons. split; [right; apply not_elem_of_nil|].
    apply Forall_cons. split; [left; reflexivity | apply Forall_nil_2].
Defined.

(** What the handler never does: it forks no process, makes no pipe, sends
    no signal and leaves no new descriptor open (it adds no pipe end to the
    descriptor table, and every file it opens at line 61 it closes at line
    73), and the only files it changes are the [file<pid>.hist] of the
    normally exited children it reaps. *)
Theorem handler_footprint (junk : list Z) (zs : list (Z * wstatus))
    (w : world) (s : proc) (name : string) :
  (forall pid code, (pid, WExited code) ∈ zs -> name <> hist_name pid) ->
  files (sigchld junk zs w s).1 !! name = files w !! name /\
  forked_pids (log (sigchld junk zs w s).2) = forked_pids (log s) /\
  List.filter is_pipe (log (sigchld junk zs w s).2) = List.filter is_pipe (log s) /\
  kills (log (sigchld junk zs w s).2) = kills (log s) /\
  fdt (sigchld junk zs w s).2 ⊆ fdt s /\
  files_held (log (sigchld junk zs w s).2) = files_held (log s).
Proof.
  intros Hname.
  destruct (sigchld_trace junk zs w s)
    as ((evs & Hlog & Hevs) & Hfd & _ & Hfiles & _).
  splits.
  - apply Hfiles. intros [pid [code|sig]] Hz Hex; [|discriminate].
    exact (Hname pid code Hz).
  - rewrite Hlog. apply forked_pids_handler, Hevs.
  - rewrite Hlog. apply pipes_made_handler, Hevs.
  - rewrite Hlog. apply kills_handler, Hevs.
  - exact Hfd.
  - apply sigchld_held.
Qed.

Lemma handler_footprint_witness :
  files (sigchld ex_junk [(500, WExited 0)] ex_world_sent ex_waiting).1 !! "ok.txt"
  = files ex_world_sent !! "ok.txt" /\
  forked_pids (log (sigchld ex_junk [(500, WExited 0)] ex_world_sent ex_waiting).2)
  = forked_pids (log ex_waiting) /\
  List.filter is_pipe (log (sigchld ex_junk [(500, WExited 0)] ex_world_sent ex_waiting).2)
  = List.filter is_pipe (log ex_waiting) /\
  kills (log (sigchld ex_junk [(500, WExited 0)] ex_world_sent ex_waiting).2)
  = kills (log ex_waiting) /\
  fdt (sigchld ex_junk [(500, WExited 0)] ex_world_sent ex_waiting).2 ⊆ fdt ex_waiting /\
  files_held (log (sigchld ex_junk [(500, WExited 0)] ex_world_sent ex_waiting).2)
  = files_held (log ex_waiting).
Proof.
  apply (handler_footprint ex_junk [(500, WExited 0)] ex_world_sent ex_waiting "ok.txt").
  intros pid code Hz. apply list_elem_of_singleton in Hz.
  injection Hz as -> _. vm_compute. discriminate.
Defined.

(** Children ended by a signal: the handler counts them and reports them,
    and that is all; it reads no pipe, writes no file and closes no
    descriptor, so the read ends of their pipes stay open. *)
Theorem handler_signalled_only (junk : list Z) (zs : list (Z * wstatus))
    (w : world) (s : proc) :
  is_halted (pc s) = false ->
  Forall (fun z => WIFEXITED z.2 = false) zs ->
  (sigchld junk zs w s).1 = w /\
  fdt (sigchld junk zs w s).2 = fdt s /\
  pc (sigchld junk zs w s).2 = pc s /\
  numTerminated (sigchld junk zs w s).2 = numTerminated s + Z.of_nat (length zs).
Proof.
  intros Hrun Hall. unfold sigchld.
  pose proof (reap_loop_trace zs junk w s) as Ht.
  pose proof (reap_loop_all zs junk w s Hrun) as Ha.
  destruct (reap_loop zs junk w s) as [w1 s1]. cbv zeta in Ht, Ha.
  cbn [fst snd] in Ht, Ha.
  destruct Ht as (_ & _ & _ & _ & Hsig).
  destruct (Hsig Hall) as (-> & Hfd & Hpc).
  destruct Ha as (_ & Hnt & _).
  { eapply Forall_impl; [exact Hall|]. intros z Hz. left. exact Hz. }
  rewrite Hpc, Hrun. cbn [fst snd]. proc_simpl. splits; auto.
Qed.

Lemma handler_signalled_only_witness :
  (sigchld ex_junk [(500, WSignaled 2)] ex_world_denied ex_waiting).1
  = ex_world_denied /\
  fdt (sigchld ex_junk [(500, WSignaled 2)] ex_world_denied ex_waiting).2
  = fdt ex_waiting /\
  pc (sigchld ex_junk [(500, WSignaled 2)] ex_world_denied ex_waiting).2
  = pc ex_waiting /\
  numTerminated (sigchld ex_junk [(500, WSignaled 2)] ex_world_denied ex_waiting).2
  = numTerminated ex_waiting + Z.of_nat (length [(500, WSignaled 2)]).
Proof.
  apply (handler_signalled_only ex_junk [(500, WSignaled 2)]
           ex_world_denied ex_waiting).
  - reflexivity.
  - repeat constructor.
Defined.

(** ** The worker of a file (lines 154-193) *)

Lemma wrap_int_length (content : string) :
  Z.of_nat (length (chars_of content)) <= INT_MAX ->
  wrap_int (Z.of_nat (length (chars_of content)))
  = Z.of_nat (length (chars_of content)).
Proof. intros H. apply wrap_int_small. unfold INT_MAX in *. lia. Qed.

(** The steps of a worker whose file opens, up to the call of
    [Histogram]. *)
Lemma worker_loads (w : world) (s : proc) (i : nat) (r wr p : Z)
    (content : string) :
  pipes s !! (i - 1)%nat = Some (r, wr) ->
  fdt s !! r = Some (RdEnd p) ->
  arg s i ≠ "SIG" -> open_read (arg s i) w = Some content ->
  run [Run; Run; Run; Run] (w, fork_child i s)
  = Some (w, with_pc (ChildCompute i (chars_of content))
               (emit (ELoad (arg s i))
                  (emit (EOpenRead (arg s i) true)
                     (sys_close r (fork_child i s))))).
Proof.
  intros Hpipe Hr Harg Hopen.
  assert (read_end (pipes s) (i - 1) = r) as Hre
      by (unfold read_end; rewrite Hpipe; reflexivity).
  assert (files w !! arg s i = Some content) as Hfile.
  { unfold open_read in Hopen. destruct (bool_decide _); [discriminate | exact Hopen]. }
  unfold run, step, fork_child, arg in *.
  cbn [pc argv pipes fdt log]. rewrite Hre. proc_simpl.
  rewrite bool_decide_eq_true_2 by exact Harg. proc_simpl.
  rewrite Hopen. proc_simpl. rewrite Hfile. reflexivity.
Qed.

(** The steps from the call of [Histogram] to the end of the worker;
    [mem] tells whether the [malloc] inside [Histogram] succeeds. *)
Lemma worker_sends (mem : bool) (w : world) (c : proc) (i : nat)
    (Data : list Z) (wr p : Z) :
  pc c = ChildCompute i Data ->
  write_end (pipes c) (i - 1) = wr -> fdt c !! wr = Some (WrEnd p) ->
  exists w' c',
    run [if mem then Run else NoMem; Run; Run] (w, c) = Some (w', c') /\
    w' = match Hist.Histogram mem Data (wrap_int (Z.of_nat (length Data))) with
         | Some h => World (files w) (denied w)
                           (<[p := default [] (pipebuf w !! p) ++ h]> (pipebuf w))
         | None => w
         end /\
    pc c' = Halted (Exited 0) /\
    log c' = log c ++ [EWritePipe wr mem; ESleep (10 + 3 * (Z.of_nat i - 1));
                       EClose wr (Some (WrEnd p))] /\
    fdt c' = delete wr (fdt c).
Proof.
  intros Hpc Hwe Hfd.
  assert (write_counts_pipe wr
            (Hist.Histogram mem Data (wrap_int (Z.of_nat (length Data)))) w c
          = (match Hist.Histogram mem Data (wrap_int (Z.of_nat (length Data))) with
             | Some h => World (files w) (denied w)
                               (<[p := default [] (pipebuf w !! p) ++ h]> (pipebuf w))
             | None => w
             end, emit (EWritePipe wr mem) c)) as Hsent.
  { unfold write_counts_pipe, Hist.Histogram. destruct mem; rewrite ?Hfd; reflexivity. }
  destruct mem; cbn [run]; unfold step at 1; rewrite Hpc; cbv beta iota zeta;
    rewrite Hwe, Hsent; cbn [fst snd];
    unfold step; proc_simpl; rewrite Hwe; proc_simpl;
    (eexists _, _; split; [reflexivity|]); proc_simpl; rewrite Hfd;
    rewrite <- !app_assoc; splits; reflexivity.
Qed.

(** A worker whose file opens sends the histogram of the bytes of the
    file on its pipe, once, then sleeps for [10 + 3 (i - 1)] seconds, closes
    its write end and exits with 0; it changes no file. *)
Theorem worker_sends_histogram (w : world) (s : proc) (i : nat) (r wr p : Z)
    (content : string) :
  pipes s !! (i - 1)%nat = Some (r, wr) ->
  fdt s !! r = Some (RdEnd p) -> fdt s !! wr = Some (WrEnd p) ->
  arg s i ≠ "SIG" -> open_read (arg s i) w = Some content ->
  Z.of_nat (length (chars_of content)) <= INT_MAX ->
  exists h w' c,
    Hist.Histogram true (chars_of content)
                   (Z.of_nat (length (chars_of content))) = Some h /\
    run [Run; Run; Run; Run; Run; Run; Run] (w, fork_child i s) = Some (w', c) /\
    pc c = Halted (Exited 0) /\
    files w' = files w /\ denied w' = denied w /\
    pipebuf w' = <[p := default [] (pipebuf w !! p) ++ h]> (pipebuf w) /\
    log c = [EClose r (Some (RdEnd p)); EOpenRead (arg s i) true;
             ELoad (arg s i); EWritePipe wr true;
             ESleep (10 + 3 * (Z.of_nat i - 1)); EClose wr (Some (WrEnd p))] /\
    sends (log c) = 1%nat /\ closes (WrEnd p) (log c) = 1%nat.
Proof.
  intros Hpipe Hr Hwr Harg Hopen Hsize.
  assert (r ≠ wr) as Hne by (intros ->; congruence).
  change [Run; Run; Run; Run; Run; Run; Run]
    with ([Run; Run; Run; Run] ++ [if true then Run else NoMem; Run; Run]).
  rewrite run_app, (worker_loads w s i r wr p content Hpipe Hr Harg Hopen).
  edestruct (worker_sends true w) as (w' & c & Hrun & Hw & Hpc & Hlog & Hfd);
    [ .. | rewrite Hrun ].
  - proc_simpl. reflexivity.
  - unfold fork_child. proc_simpl. unfold write_end. rewrite Hpipe. reflexivity.
  - unfold fork_child. proc_simpl. rewrite lookup_delete_ne by exact Hne. exact Hwr.
  - rewrite wrap_int_length in Hw by exact Hsize.
    unfold Hist.Histogram in Hw |- *.
    unfold fork_child in Hlog. proc_simpl. rewrite Hr in Hlog. cbn [app] in Hlog.
    eexists _, w', c. rewrite Hlog, Hw.
    splits; try reflexivity; try assumption.
    unfold closes. cbn [List.filter closes_end].
    rewrite bool_decide_eq_false_2 by discriminate.
    rewrite bool_decide_eq_true_2 by reflexivity. reflexivity.
Qed.

Lemma worker_sends_histogram_witness :
  exists h w' c,
    Hist.Histogram true (chars_of "AbcAbc")
                   (Z.of_nat (length (chars_of "AbcAbc"))) = Some h /\
    run [Run; Run; Run; Run; Run; Run; Run] (ex_world_pipe, fork_child 1 ex_at_fork_ok)
    = Some (w', c) /\
    pc c = Halted (Exited 0) /\
    files w' = files ex_world_pipe /\ denied w' = denied ex_world_pipe /\
    pipebuf w' = <[0 := default [] (pipebuf ex_world_pipe !! 0) ++ h]>
                   (pipebuf ex_world_pipe) /\
    log c = [EClose 3 (Some (RdEnd 0)); EOpenRead (arg ex_at_fork_ok 1) true;
             ELoad (arg ex_at_fork_ok 1); EWritePipe 4 true;
             ESleep (10 + 3 * (Z.of_nat 1 - 1)); EClose 4 (Some (WrEnd 0))] /\
    sends (log c) = 1%nat /\ closes (WrEnd 0) (log c) = 1%nat.
Proof.
  apply (worker_sends_histogram ex_world_pipe ex_at_fork_ok 1 3 4 0 "AbcAbc").
  - vm_compute. reflexivity.
  - vm_compute. reflexivity.
  - vm_compute. reflexivity.
  - vm_compute. discriminate.
  - vm_compute. reflexivity.
  - vm_compute. discriminate.
Defined.

(** Allocation failures in a worker.  If the [malloc] of line 170 fails, the
    worker closes its write end and exits with 1, having sent nothing.  If
    the [malloc] inside [Histogram] fails, the worker has no table to send:
    the [write] of line 183 sends nothing, and the worker still sleeps,
    closes its write end and exits with 0.  In both cases the world is as
    it was. *)
Theorem worker_out_of_memory (w : world) (s : proc) (i : nat) (r wr p : Z)
    (content : string) :
  pipes s !! (i - 1)%nat = Some (r, wr) ->
  fdt s !! r = Some (RdEnd p) -> fdt s !! wr = Some (WrEnd p) ->
  arg s i ≠ "SIG" -> open_read (arg s i) w = Some content ->
  (exists c,
     run [Run; Run; Run; NoMem] (w, fork_child i s) = Some (w, c) /\
     pc c = Halted (Exited 1) /\
     sends (log c) = 0%nat /\ closes (WrEnd p) (log c) = 1%nat) /\
  (exists c,
     run [Run; Run; Run; Run; NoMem; Run; Run] (w, fork_child i s) = Some (w, c) /\
     pc c = Halted (Exited 0) /\
     sends (log c) = 0%nat /\ closes (WrEnd p) (log c) = 1%nat).
Proof.
  intros Hpipe Hr Hwr Harg Hopen.
  assert (r ≠ wr) as Hne by (intros ->; congruence).
  assert (write_end (pipes s) (i - 1) = wr) as Hwe
      by (unfold write_end; rewrite Hpipe; reflexivity).
  split.
  - assert (read_end (pipes s) (i - 1) = r) as Hre
        by (unfold read_end; rewrite Hpipe; reflexivity).
    unfold run, step, fork_child, arg in *.
    cbn [pc argv pipes fdt log]. rewrite Hre. proc_simpl.
    rewrite bool_decide_eq_true_2 by exact Harg. proc_simpl.
    rewrite Hopen. proc_simpl.
    eexists. split; [reflexivity|]. proc_simpl.
    rewrite Hwe, Hr, lookup_delete_ne, Hwr by exact Hne. cbn [app].
    splits; try reflexivity.
    unfold closes. cbn [List.filter closes_end].
    rewrite bool_decide_eq_false_2 by discriminate.
    rewrite bool_decide_eq_true_2 by reflexivity. reflexivity.
  - change [Run; Run; Run; Run; NoMem; Run; Run]
      with ([Run; Run; Run; Run] ++ [if false then Run else NoMem; Run; Run]).
    rewrite run_app, (worker_loads w s i r wr p content Hpipe Hr Harg Hopen).
    edestruct (worker_sends false w) as (w' & c & Hrun & Hw & Hpc & Hlog & Hfd);
      [ .. | rewrite Hrun ].
    + proc_simpl. reflexivity.
    + unfold fork_child. proc_simpl. exact Hwe.
    + unfold fork_child. proc_simpl. rewrite lookup_delete_ne by exact Hne. exact Hwr.
    + unfold Hist.Histogram in Hw. subst w'.
      unfold fork_child in Hlog. proc_simpl. rewrite Hr in Hlog. cbn [app] in Hlog.
      exists c. rewrite Hlog. splits; try reflexivity; try assumption.
      unfold closes. cbn [List.filter closes_end].
      rewrite bool_decide_eq_false_2 by discriminate.
      rewrite bool_decide_eq_true_2 by reflexivity. reflexivity.
Qed.

Lemma worker_out_of_memory_witness :
  (exists c,
     run [Run; Run; Run; NoMem] (ex_world_pipe, fork_child 1 ex_at_fork_ok)
     = Some (ex_world_pipe, c) /\
     pc c = Halted (Exited 1) /\
     sends (log c) = 0%nat /\ closes (WrEnd 0) (log c) = 1%nat) /\
  (exists c,
     run [Run; Run; Run; Run; NoMem; Run; Run]
         (ex_world_pipe, fork_child 1 ex_at_fork_ok) = Some (ex_world_pipe, c) /\
     pc c = Halted (Exited 0) /\
     sends (log c) = 0%nat /\ closes (WrEnd 0) (log c) = 1%nat).
Proof.
  apply (worker_out_of_memory ex_world_pipe ex_at_fork_ok 1 3 4 0 "AbcAbc").
  - vm_compute. reflexivity.
  - vm_compute. reflexivity.
  - vm_compute. reflexivity.
  - vm_compute. discriminate.
  - vm_compute. reflexivity.
Defined.

(** ** From the worker's pipe to the file *)

(** The success path of the handler (lines 54-76).  For a normally exited
    child whose 26 counts are in its pipe and whose file can be opened, the
    handler takes the counts out of the pipe, writes [file<pid>.hist] (the
    26 lines, followed by what an existing file held beyond them), leaves
    every other file alone, closes the read end, counts the termination
    and goes on with the next child. *)
Theorem handler_saves_histogram
    (child_pid code : Z) (rest : list (Z * wstatus)) (counts : list Z)
    (w : world) (s : proc) (curPipe : nat) (p : Z) (data : list Z) :
  is_halted (pc s) = false ->
  find_pipe child_pid (take MAX_FILES (pids s)) 0 = Some curPipe ->
  fdt s !! read_end (pipes s) curPipe = Some (RdEnd p) ->
  pipebuf w !! p = Some data -> length data = 26%nat ->
  length counts = 26%nat ->
  hist_name child_pid ∉ denied w ->
  exists w' s',
    reap_child child_pid (WExited code) counts w s = (w', s', data) /\
    files w' !! hist_name child_pid
    = Some (hist_text data
            +:+ sdrop (String.length (hist_text data))
                      (default EmptyString (files w !! hist_name child_pid))) /\
    (forall name, name <> hist_name child_pid ->
                  files w' !! name = files w !! name) /\
    pipebuf w' !! p = Some [] /\
    pc s' = pc s /\ numTerminated s' = numTerminated s + 1 /\
    fdt s' = delete (read_end (pipes s) curPipe) (fdt s) /\
    reap_loop ((child_pid, WExited code) :: rest) counts w s
    = reap_loop rest data w' s'.
Proof.
  intros Hrun Hfind Hfd Hp Hlen Hjunk Hden.
  cbn [reap_loop].
  unfold reap_child, read_counts, open_create. cbn [WIFEXITED]. proc_simpl.
  rewrite Hfind, Hfd, Hp. cbn [default from_option]. unfold id.
  rewrite (take_ge data 26) by lia. rewrite Hlen.
  rewrite (drop_ge counts 26) by lia. rewrite (drop_ge data 26) by lia.
  rewrite app_nil_r.
  assert ((0 <? 4 * Z.of_nat 26) = true) as -> by reflexivity.
  proc_simpl.
  rewrite bool_decide_eq_false_2 by exact Hden.
  proc_simpl. rewrite Hrun.
  eexists _, _. split; [reflexivity|]. proc_simpl.
  rewrite write_counts_over. splits; try reflexivity.
  - apply lookup_insert_eq.
  - intros name Hname. apply lookup_insert_ne. congruence.
  - apply lookup_insert_eq.
Qed.

Lemma handler_saves_histogram_witness :
  exists w' s',
    reap_child 500 (WExited 0) ex_junk
               (World ∅ [] {[ 0 := replicate 26 1 ]}) ex_waiting
    = (w', s', replicate 26 1) /\
    files w' !! hist_name 500
    = Some (hist_text (replicate 26 1)
            +:+ sdrop (String.length (hist_text (replicate 26 1)))
                      (default EmptyString
                         (files (World ∅ [] {[ 0 := replicate 26 1 ]})
                          !! hist_name 500))) /\
    (forall name, name <> hist_name 500 ->
                  files w' !! name
                  = files (World ∅ [] {[ 0 := replicate 26 1 ]}) !! name) /\
    pipebuf w' !! 0 = Some [] /\
    pc s' = pc ex_waiting /\ numTerminated s' = numTerminated ex_waiting + 1 /\
    fdt s' = delete (read_end (pipes ex_waiting) 0) (fdt ex_waiting) /\
    reap_loop [(500, WExited 0)] ex_junk
              (World ∅ [] {[ 0 := replicate 26 1 ]}) ex_waiting
    = reap_loop [] (replicate 26 1) w' s'.
Proof.
  apply (handler_saves_histogram 500 0 [] ex_junk
           (World ∅ [] {[ 0 := replicate 26 1 ]}) ex_waiting 0%nat 0
           (replicate 26 1)).
  - reflexivity.
  - vm_compute. reflexivity.
  - vm_compute. reflexivity.
  - vm_compute. reflexivity.
  - reflexivity.
  - reflexivity.
  - apply not_elem_of_nil.
Defined.



(** ** The spawn loop of the supervisor (lines 120-216) *)

Lemma forks_handler l evs :
  Forall (fun e => handler_event e = true) evs -> forks (l ++ evs) = forks l.
Proof.
  intros H. unfold forks. rewrite List.filter_app, length_app.
  induction H as [|e evs He _ IH]; [cbn; lia|].
  destruct e; try discriminate; exact IH.
Qed.

Lemma sigchld_pc junk zs w s :
  pc (sigchld junk zs w s).2 = pc s \/
  pc (sigchld junk zs w s).2 = Halted (Exited EXIT_FAILURE).
Proof.
  unfold sigchld.
  assert (pc (reap_loop zs junk w s).2 = pc s \/
          pc (reap_loop zs junk w s).2 = Halted (Exited EXIT_FAILURE)) as H.
  { generalize junk as counts. revert w s.
    induction zs as [|[child_pid child_status] zs IH]; intros w s counts.
    - left. reflexivity.
    - cbn [reap_loop].
      pose proof (reap_child_frame child_pid child_status counts w s) as Hf.
      destruct (reap_child child_pid child_status counts w s) as [[w1 s1] counts1].
      cbv zeta in Hf. cbn [fst snd] in Hf.
      destruct Hf as (_ & _ & _ & _ & _ & _ & _ & Hpc).
      destruct (is_halted (pc s1)); cbn [snd]; [exact Hpc|].
      destruct (IH w1 s1 counts1) as [I|I]; [|right; exact I].
      rewrite I. exact Hpc. }
  destruct (reap_loop zs junk w s) as [w1 s1]. cbn [snd] in H.
  destruct (is_halted (pc s1)); cbn [snd]; proc_simpl; exact H.
Qed.

Lemma shaped_step args l st st' :
  shaped args st -> step l st = Some st' -> shaped args st'.
Proof.
  destruct st as [w s]. intros (Hav & Hpp & Hpd & Hpt & Hfk) Hstep.
  cbn [snd] in Hav, Hpp, Hpd, Hpt, Hfk.
  destruct (is_halted (pc s)) eqn:Hrun;
    [rewrite step_halted in Hstep by exact Hrun; discriminate|].
  destruct l.
  8: { rewrite step_sigchld in Hstep by exact Hrun.
       destruct (reapable s zs); [|discriminate]. injection Hstep as <-.
       destruct (sigchld_trace junk zs w s)
         as ((evs & Hlog & Hevs) & _ & _ & _ & Tav & Tpd & Tpp & _).
       unfold shaped. rewrite Tav, Tpd, Tpp, Hlog, forks_handler by exact Hevs.
       splits; try assumption.
       - destruct (sigchld_pc junk zs w s) as [-> | ->]; [exact Hpt | reflexivity].
       - destruct (sigchld_pc junk zs w s) as [-> | ->]; [exact Hfk | discriminate]. }
  7: { rewrite step_deliver in Hstep by exact Hrun. injection Hstep as <-.
       unfold shaped. proc_simpl. splits; try assumption; [exact I|discriminate]. }
  all: unfold step, write_counts_pipe in Hstep;
    destruct (pc s) eqn:Hpc; try discriminate Hstep; try contradiction;
    cbv zeta in Hstep; step_branches Hstep; injection Hstep as <-;
    unfold shaped; proc_simpl; rewrite ?Hpc; rewrite ?length_insert;
    rewrite ?forks_snoc; cbn [is_fork sup_point spawned_at] in *;
    unfold argc, MAX_FILES, EXIT_FAILURE in *; rewrite ?Hav in *;
    repeat match goal with
           | H : (_ =? _)%nat = true |- _ => apply Nat.eqb_eq in H
           | H : (_ =? _)%nat = false |- _ => apply Nat.eqb_neq in H
           | H : (_ <? _)%nat = true |- _ => apply Nat.ltb_lt in H
           | H : (_ <? _)%nat = false |- _ => apply Nat.ltb_ge in H
           end;
    splits; try first [assumption | reflexivity | discriminate | lia
                      | intros k [= <-]; specialize (Hfk _ eq_refl); lia].
Qed.

Lemma shaped_init w0 args : shaped args (w0, init args).
Proof.
  unfold shaped, init. proc_simpl.
  rewrite !length_replicate. splits; try reflexivity; try exact I.
  intros k [= <-]. reflexivity.
Qed.

Lemma shaped_reachable w0 args st : reachable w0 args st -> shaped args st.
Proof.
  intros [ls Hrun].
  exact (run_invariant (shaped args) (shaped_step args) ls _ _
           (shaped_init w0 args) Hrun).
Qed.

(** The tables are never indexed out of range: they keep their
    [MAX_FILES] entries, and whenever the supervisor is at a statement that
    uses [pipes[i - 1]], [pids[i - 1]] or [argv[i]], the index [i - 1] is
    below [MAX_FILES] and [i] is the index of an argument. *)
Theorem table_index_in_range (w0 : world) (args : list string)
    (st : world * proc) (k : nat) :
  reachable w0 args st ->
  length (pipes st.2) = MAX_FILES /\ length (pids st.2) = MAX_FILES /\
  (table_index (pc st.2) = Some k ->
   (k < MAX_FILES)%nat /\ is_Some (argv st.2 !! S k) /\ (1 <= S k)%nat).
Proof.
  intros Hreach. destruct (shaped_reachable _ _ _ Hreach) as (Hav & Hpp & Hpd & Hpt & _).
  splits; [exact Hpp | exact Hpd |].
  intros Hk. rewrite Hav.
  assert (S k < length args /\ length args <= MAX_FILES + 1)%nat as [H1 H2].
  { destruct (pc st.2); try discriminate; cbn in Hk, Hpt;
      injection Hk as <-; unfold MAX_FILES in *; lia. }
  splits; [unfold MAX_FILES in *; lia | apply lookup_lt_is_Some_2; exact H1 | lia].
Qed.

Lemma table_index_in_range_witness :
  length (pipes (ex_final [Run; Run; PipeOk 0 3 4] ex_world ["parallel"; "ok.txt"]).2)
  = MAX_FILES /\
  length (pids (ex_final [Run; Run; PipeOk 0 3 4] ex_world ["parallel"; "ok.txt"]).2)
  = MAX_FILES /\
  (table_index (pc (ex_final [Run; Run; PipeOk 0 3 4] ex_world
                             ["parallel"; "ok.txt"]).2) = Some 0%nat ->
   (0 < MAX_FILES)%nat /\
   is_Some (argv (ex_final [Run; Run; PipeOk 0 3 4] ex_world
                           ["parallel"; "ok.txt"]).2 !! 1%nat) /\
   (1 <= 1)%nat).
Proof.
  apply (table_index_in_range ex_world ["parallel"; "ok.txt"]
           (ex_final [Run; Run; PipeOk 0 3 4] ex_world ["parallel"; "ok.txt"]) 0).
  exists [Run; Run; PipeOk 0 3 4]. vm_compute. reflexivity.
Defined.

(** How the supervisor ends, and what it never runs: it is never at a
    statement of the worker branch (lines 155-197), it returns from [main]
    with 0 only, and it calls [exit] with [EXIT_FAILURE] only. *)
Theorem supervisor_endings (w0 : world) (args : list string)
    (st : world * proc) :
  reachable w0 args st ->
  child_point (pc st.2) = false /\
  (forall code, pc st.2 = Halted (Returned code) -> code = 0) /\
  (forall code, pc st.2 = Halted (Exited code) -> code = EXIT_FAILURE).
Proof.
  intros Hreach. destruct (shaped_reachable _ _ _ Hreach) as (_ & _ & _ & Hpt & _).
  destruct (pc st.2) as [| | | | | | | | | | | | | | | | |[c|c|sg]];
    cbn in Hpt; try contradiction;
    (splits; [reflexivity | intros code [= <-] | intros code [= <-]]);
    try exact Hpt.
Qed.

Lemma supervisor_endings_witness :
  child_point (pc (ex_final ex_missing (World ∅ [] ∅)
                            ["parallel"; "missing.txt"]).2) = false /\
  (forall code, pc (ex_final ex_missing (World ∅ [] ∅)
                             ["parallel"; "missing.txt"]).2
                = Halted (Returned code) -> code = 0) /\
  (forall code, pc (ex_final ex_missing (World ∅ [] ∅)
                             ["parallel"; "missing.txt"]).2
                = Halted (Exited code) -> code = EXIT_FAILURE).
Proof.
  apply (supervisor_endings (World ∅ [] ∅) ["parallel"; "missing.txt"]).
  exists ex_missing. vm_compute. reflexivity.
Defined.

(** One worker per argument: when the supervisor reaches the wait loop it
    has forked, and counted in [numChildren], exactly [argc - 1] children,
    which is at most [MAX_FILES]. *)
Theorem one_worker_per_argument (w0 : world) (args : list string)
    (st : world * proc) :
  reachable w0 args st -> pc st.2 = AtWait ->
  forks (log st.2) = (length args - 1)%nat /\
  numChildren st.2 = Z.of_nat (length args - 1) /\
  (length args - 1 <= MAX_FILES)%nat.
Proof.
  intros Hreach Hpc.
  destruct (shaped_reachable _ _ _ Hreach) as (_ & _ & _ & Hpt & Hfk).
  destruct (counted_reachable _ _ _ Hreach) as (_ & _ & Hnc & _).
  rewrite Hpc in Hpt, Hfk, Hnc. cbn in Hpt, Hfk, Hnc.
  specialize (Hfk _ eq_refl). specialize (Hnc eq_refl).
  unfold forked in Hnc. rewrite Hfk in Hnc.
  unfold MAX_FILES in *. splits; [exact Hfk | lia | lia].
Qed.

Lemma one_worker_per_argument_witness :
  forks (log (ex_final [Run; Run; PipeOk 0 3 4; ForkParent 500; Run; Run; Run; Run; Run]
                       ex_world ["parallel"; "ok.txt"]).2)
  = (length ["parallel"; "ok.txt"] - 1)%nat /\
  numChildren (ex_final [Run; Run; PipeOk 0 3 4; ForkParent 500; Run; Run; Run; Run; Run]
                        ex_world ["parallel"; "ok.txt"]).2
  = Z.of_nat (length ["parallel"; "ok.txt"] - 1) /\
  (length ["parallel"; "ok.txt"] - 1 <= MAX_FILES)%nat.
Proof.
  apply (one_worker_per_argument ex_world ["parallel"; "ok.txt"]
           (ex_final [Run; Run; PipeOk 0 3 4; ForkParent 500; Run; Run; Run; Run; Run]
                     ex_world ["parallel"; "ok.txt"])).
  - exists [Run; Run; PipeOk 0 3 4; ForkParent 500; Run; Run; Run; Run; Run].
    vm_compute. reflexivity.
  - vm_compute. reflexivity.
Defined.

(** ** The [pids] table *)

Lemma forked_pids_snoc l e :
  forked_pids (l ++ [e])
  = forked_pids l ++ match e with EFork pid => [pid] | _ => [] end.
Proof. unfold forked_pids. rewrite omap_app. destruct e; reflexivity. Qed.

Lemma forked_pids_length l : length (forked_pids l) = forks l.
Proof.
  unfold forked_pids, forks. induction l as [|e l IH]; [reflexivity|].
  destruct e; cbn; auto.
Qed.

Lemma store_next (stored : list Z) (pid : Z) (n : nat) :
  (length stored < n)%nat ->
  <[length stored := pid]> (stored ++ replicate (n - length stored) 0)
  = (stored ++ [pid]) ++ replicate (n - length (stored ++ [pid])) 0.
Proof.
  intros Hlt. rewrite length_app. cbn [length].
  replace (n - length stored)%nat with (S (n - (length stored + 1))) by lia.
  cbn [replicate]. rewrite <- app_assoc. cbn [app].
  rewrite insert_app_r_alt by lia. rewrite Nat.sub_diag. reflexivity.
Qed.

Lemma recorded_step args l st st' :
  shaped args st -> recorded st -> step l st = Some st' -> recorded st'.
Proof.
  destruct st as [w s]. intros (Hav & _ & _ & Hpt & Hfk) (R1 & R2 & R3) Hstep.
  cbn [snd] in Hav, Hpt, Hfk, R1, R2, R3.
  destruct (is_halted (pc s)) eqn:Hrun;
    [rewrite step_halted in Hstep by exact Hrun; discriminate|].
  specialize (R3 eq_refl). destruct R3 as (stored & R3 & R4).
  destruct l.
  8: { rewrite step_sigchld in Hstep by exact Hrun.
       destruct (reapable s zs); [|discriminate]. injection Hstep as <-.
       destruct (sigchld_trace junk zs w s)
         as ((evs & Hlog & Hevs) & _ & _ & _ & _ & Tpd & _ & _ & Tch).
       unfold recorded. rewrite Tpd, Hlog, forked_pids_handler by exact Hevs.
       splits; [exact R1 | etransitivity; eassumption |].
       intros Hh. destruct (sigchld_pc junk zs w s) as [E|E];
         rewrite E in Hh |- *; [|discriminate].
       exists stored. auto. }
  7: { rewrite step_deliver in Hstep by exact Hrun. injection Hstep as <-.
       unfold recorded. proc_simpl. splits; [exact R1 | exact R2 | discriminate]. }
  all: unfold step, write_counts_pipe in Hstep;
    destruct (pc s) eqn:Hpc; try discriminate Hstep; try contradiction;
    cbv zeta in Hstep; step_branches Hstep; injection Hstep as <-;
    unfold recorded; proc_simpl; rewrite ?forked_pids_snoc, ?app_nil_r;
    cbn [pending is_halted] in *; rewrite ?app_nil_r in *;
    splits; try first [assumption | discriminate
                      | intros _; exists stored; rewrite ?Hpc; cbn [pending];
                        rewrite ?app_nil_r; split; first [assumption | congruence]].
  - (* line 201 *)
    intros _. exists (stored ++ [pid]). rewrite app_nil_r. split; [exact R3|].
    specialize (Hfk _ eq_refl). rewrite <- forked_pids_length, R3, length_app in Hfk.
    cbn [length] in Hfk. cbn [sup_point] in Hpt.
    replace (i - 1)%nat with (length stored) by lia.
    rewrite R4. apply store_next. unfold MAX_FILES in *. lia.
  - (* line 150 *)
    match goal with Hnew : bool_decide _ = true |- _ =>
      apply bool_decide_eq_true_1 in Hnew; destruct Hnew as [Hpos _] end.
    apply Forall_app. split; [exact R1 | repeat constructor; exact Hpos].
  - intros x Hx. apply elem_of_app. apply elem_of_cons in Hx as [->|Hx].
    + right. left.
    + left. apply R2. exact Hx.
Qed.

Lemma recorded_init w0 args : recorded (w0, init args).
Proof.
  unfold recorded, init. proc_simpl. cbn [forked_pids omap pending].
  splits; [constructor | reflexivity |].
  intros _. exists []. split; reflexivity.
Qed.

Lemma recorded_reachable w0 args st : reachable w0 args st -> recorded st.
Proof.
  intros [ls Hrun].
  assert (shaped args st /\ recorded st) as [_ H]; [|exact H].
  revert Hrun.
  apply (run_invariant (fun x => shaped args x /\ recorded x)).
  - intros l x x' [Hs Hr] Hstep. split.
    + exact (shaped_step args l x x' Hs Hstep).
    + exact (recorded_step args l x x' Hs Hr Hstep).
  - split; [apply shaped_init | apply recorded_init].
Qed.


(** The [pids] table holds, from index 0 and in spawn order, the pids that
    [fork] returned, all positive, followed by zeros; the only pid that may
    be missing is the one of the child whose [fork] has returned while line
    201 has not run yet. *)
Theorem pids_table_records_forks (w0 : world) (args : list string)
    (st : world * proc) :
  reachable w0 args st -> is_halted (pc st.2) = false ->
  exists stored,
    forked_pids (log st.2) = stored ++ pending (pc st.2) /\
    pids st.2 = stored ++ replicate (MAX_FILES - length stored) 0 /\
    Forall (fun pid => 0 < pid) stored.
Proof.
  intros Hreach Hrun.
  destruct (recorded_reachable _ _ _ Hreach) as (R1 & _ & R3).
  destruct (R3 Hrun) as (stored & E1 & E2).
  exists stored. splits; [exact E1 | exact E2 |].
  rewrite E1 in R1. apply Forall_app in R1 as [R1 _]. exact R1.
Qed.

Lemma pids_table_records_forks_witness :
  exists stored,
    forked_pids (log (ex_final [Run; Run; PipeOk 0 3 4; ForkParent 500; Run; Run]
                               ex_world ["parallel"; "ok.txt"]).2)
    = stored ++ pending (pc (ex_final [Run; Run; PipeOk 0 3 4; ForkParent 500; Run; Run]
                                      ex_world ["parallel"; "ok.txt"]).2) /\
    pids (ex_final [Run; Run; PipeOk 0 3 4; ForkParent 500; Run; Run]
                   ex_world ["parallel"; "ok.txt"]).2
    = stored ++ replicate (MAX_FILES - length stored) 0 /\
    Forall (fun pid => 0 < pid) stored.
Proof.
  apply (pids_table_records_forks ex_world ["parallel"; "ok.txt"]
           (ex_final [Run; Run; PipeOk 0 3 4; ForkParent 500; Run; Run]
                     ex_world ["parallel"; "ok.txt"])).
  - exists [Run; Run; PipeOk 0 3 4; ForkParent 500; Run; Run].
    vm_compute. reflexivity.
  - vm_compute. reflexivity.
Defined.

(** The lookup of lines 46-51 finds every child that is still to be
    reaped, except the one whose pid line 201 has not recorded yet: the
    report of line 78 can only concern that child. *)
Theorem lookup_finds_recorded_child (w0 : world) (args : list string)
    (st : world * proc) (child_pid : Z) :
  reachable w0 args st -> is_halted (pc st.2) = false ->
  child_pid ∈ children st.2 -> child_pid ∉ pending (pc st.2) ->
  exists curPipe,
    find_pipe child_pid (take MAX_FILES (pids st.2)) 0 = Some curPipe /\
    pids st.2 !! curPipe = Some child_pid.
Proof.
  intros Hreach Hrun Hin Hnp.
  destruct (recorded_reachable _ _ _ Hreach) as (_ & R2 & R3).
  destruct (shaped_reachable _ _ _ Hreach) as (_ & _ & Hpd & _).
  destruct (R3 Hrun) as (stored & E1 & E2).
  rewrite take_ge by lia.
  destruct (find_pipe child_pid (pids st.2) 0) as [k|] eqn:E.
  - exists k. split; [reflexivity|].
    apply find_pipe_Some in E as (_ & Hk & _). rewrite Nat.sub_0_r in Hk. exact Hk.
  - exfalso. apply find_pipe_None in E. apply E.
    rewrite E2. apply elem_of_app. left.
    apply R2 in Hin. rewrite E1 in Hin. apply elem_of_app in Hin as [H|H];
      [exact H | contradiction].
Qed.

Lemma lookup_finds_recorded_child_witness :
  exists curPipe,
    find_pipe 500
      (take MAX_FILES
         (pids (ex_final [Run; Run; PipeOk 0 3 4; ForkParent 500; Run; Run]
                         ex_world ["parallel"; "ok.txt"]).2)) 0 = Some curPipe /\
    pids (ex_final [Run; Run; PipeOk 0 3 4; ForkParent 500; Run; Run]
                   ex_world ["parallel"; "ok.txt"]).2 !! curPipe = Some 500.
Proof.
  apply (lookup_finds_recorded_child ex_world ["parallel"; "ok.txt"]
           (ex_final [Run; Run; PipeOk 0 3 4; ForkParent 500; Run; Run]
                     ex_world ["parallel"; "ok.txt"]) 500).
  - exists [Run; Run; PipeOk 0 3 4; ForkParent 500; Run; Run].
    vm_compute. reflexivity.
  - vm_compute. reflexivity.
  - refine (bool_decide_unpack _ _). vm_compute. exact I.
  - refine (bool_decide_unpack _ _). vm_compute. exact I.
Defined.

(** ** The wait loop and the children *)

(** In the wait loop the counters are equal exactly when no child is left
    to reap: the supervisor returns 0 at its next test if every child has
    been reaped, and sleeps again if one has not. *)
Theorem wait_ends_when_all_reaped (w0 : world) (args : list string)
    (st : world * proc) :
  reachable w0 args st -> pc st.2 = AtWait ->
  (children st.2 = [] ->
   step Run st = Some (st.1, with_pc (Halted (Returned 0)) st.2)) /\
  (children st.2 <> [] ->
   step Run st = Some (st.1, emit (ESleep 1) st.2)).
Proof.
  intros Hreach Hpc. destruct st as [w s]. cbn [fst snd] in *.
  destruct (counted_reachable _ _ _ Hreach) as (_ & C2 & C3 & _).
  cbn [snd] in C2, C3. rewrite Hpc in C3. specialize (C3 eq_refl).
  cbn [uncounted] in C3. unfold step. rewrite Hpc. split; intros Hch.
  - rewrite Hch in C2. cbn [length] in C2.
    rewrite (proj2 (Z.ltb_ge _ _)) by lia. reflexivity.
  - assert (0 < length (children s))%nat
        by (destruct (children s); [congruence | cbn; lia]).
    rewrite (proj2 (Z.ltb_lt _ _)) by lia. reflexivity.
Qed.

Lemma wait_ends_when_all_reaped_witness :
  (children (ex_final [Run; Run; PipeOk 0 3 4; ForkParent 500; Run; Run; Run; Run; Run]
                      ex_world ["parallel"; "ok.txt"]).2 = [] ->
   step Run (ex_final [Run; Run; PipeOk 0 3 4; ForkParent 500; Run; Run; Run; Run; Run]
                      ex_world ["parallel"; "ok.txt"])
   = Some ((ex_final [Run; Run; PipeOk 0 3 4; ForkParent 500; Run; Run; Run; Run; Run]
                     ex_world ["parallel"; "ok.txt"]).1,
           with_pc (Halted (Returned 0))
             (ex_final [Run; Run; PipeOk 0 3 4; ForkParent 500; Run; Run; Run; Run; Run]
                       ex_world ["parallel"; "ok.txt"]).2)) /\
  (children (ex_final [Run; Run; PipeOk 0 3 4; ForkParent 500; Run; Run; Run; Run; Run]
                      ex_world ["parallel"; "ok.txt"]).2 <> [] ->
   step Run (ex_final [Run; Run; PipeOk 0 3 4; ForkParent 500; Run; Run; Run; Run; Run]
                      ex_world ["parallel"; "ok.txt"])
   = Some ((ex_final [Run; Run; PipeOk 0 3 4; ForkParent 500; Run; Run; Run; Run; Run]
                     ex_world ["parallel"; "ok.txt"]).1,
           emit (ESleep 1)
             (ex_final [Run; Run; PipeOk 0 3 4; ForkParent 500; Run; Run; Run; Run; Run]
                       ex_world ["parallel"; "ok.txt"]).2)).
Proof.
  apply (wait_ends_when_all_reaped ex_world ["parallel"; "ok.txt"]
           (ex_final [Run; Run; PipeOk 0 3 4; ForkParent 500; Run; Run; Run; Run; Run]
                     ex_world ["parallel"; "ok.txt"])).
  - exists [Run; Run; PipeOk 0 3 4; ForkParent 500; Run; Run; Run; Run; Run].
    vm_compute. reflexivity.
  - vm_compute. reflexivity.
Defined.

(** ** The write ends in the supervisor *)

Lemma write_ends_step args l st st' :
  shaped args st -> write_ends_closed st -> step l st = Some st' ->
  write_ends_closed st'.
Proof.
  destruct st as [w s]. intros (_ & Hpp & _ & Hpt & _) Hold Hstep.
  unfold write_ends_closed in Hold. cbn [snd] in Hpp, Hpt, Hold.
  destruct (is_halted (pc s)) eqn:Hrun;
    [rewrite step_halted in Hstep by exact Hrun; discriminate|].
  specialize (Hold eq_refl).
  destruct l.
  8: { rewrite step_sigchld in Hstep by exact Hrun.
       destruct (reapable s zs); [|discriminate]. injection Hstep as <-.
       destruct (sigchld_trace junk zs w s)
         as (_ & Hfd & _ & _ & _ & _ & Tpp & _).
       intros Hh fd p Hq.
       destruct (sigchld_pc junk zs w s) as [E|E];
         rewrite E in Hh |- *; [|discriminate].
       rewrite Tpp. apply (Hold fd p).
       eapply lookup_weaken; [exact Hq | exact Hfd]. }
  7: { rewrite step_deliver in Hstep by exact Hrun. injection Hstep as <-.
       intros Hh. discriminate. }
  all: unfold step, write_counts_pipe in Hstep;
    destruct (pc s) eqn:Hpc; try discriminate Hstep; try contradiction;
    cbv zeta in Hstep; step_branches Hstep; injection Hstep as <-;
    unfold write_ends_closed; proc_simpl; intros Hh fd q Hq;
    try discriminate Hh;
    try (destruct (Hold fd q Hq) as (i' & [E|[pid' E]] & _); discriminate E).
  - (* line 200 *)
    exfalso. destruct (decide (fd = write_end (pipes s) (i - 1))) as [->|Hne].
    + rewrite lookup_delete_eq in Hq. discriminate.
    + rewrite lookup_delete_ne in Hq by congruence.
      destruct (Hold fd q Hq) as (i' & [E|[pid' E]] & Hfd); [discriminate E|].
      injection E as <- <-. contradiction.
  - (* line 145 *)
    exists i. split; [left; reflexivity|].
    unfold write_end. rewrite list_lookup_insert_eq
      by (cbn [sup_point] in Hpt; unfold MAX_FILES in *; lia).
    cbn [default from_option id snd].
    destruct (decide (fd = r)) as [->|Hr];
      [rewrite lookup_insert_eq in Hq; discriminate|].
    rewrite lookup_insert_ne in Hq by congruence.
    destruct (decide (fd = w0)) as [->|Hw]; [reflexivity|].
    rewrite lookup_insert_ne in Hq by congruence.
    destruct (Hold fd q Hq) as (i' & [E|[pid' E]] & _); discriminate E.
  - (* line 150 *)
    destruct (Hold fd q Hq) as (i' & [E|[pid' E]] & Hfd); [|discriminate E].
    injection E as <-. exists i. split; [right; eauto | exact Hfd].
Qed.

Lemma write_ends_reachable w0 args st :
  reachable w0 args st -> write_ends_closed st.
Proof.
  intros [ls Hrun].
  assert (shaped args st /\ write_ends_closed st) as [_ H]; [|exact H].
  revert Hrun.
  apply (run_invariant (fun x => shaped args x /\ write_ends_closed x)).
  - intros l x x' [Hs Hr] Hstep. split.
    + exact (shaped_step args l x x' Hs Hstep).
    + exact (write_ends_step args l x x' Hs Hr Hstep).
  - split; [apply shaped_init|].
    intros _ fd p Hq. unfold init in Hq. proc_simpl.
    rewrite lookup_empty in Hq. discriminate.
Qed.

(** The supervisor keeps no write end: the only write end in its
    descriptor table is the one of the pipe just made, between the [pipe] of
    line 145 and the [close] of line 200.  So the worker forked at line 150
    inherits the write end of its own pipe and of no other, and when a
    worker has ended nothing holds the write end of its pipe. *)
Theorem supervisor_keeps_no_write_end (w0 : world) (args : list string)
    (st : world * proc) (fd p : Z) :
  reachable w0 args st -> is_halted (pc st.2) = false ->
  fdt st.2 !! fd = Some (WrEnd p) ->
  exists i,
    (pc st.2 = AtFork i \/ exists pid, pc st.2 = ParentClose i pid) /\
    fd = write_end (pipes st.2) (i - 1) /\
    (pc st.2 = AtFork i ->
     forall fd' p', fdt (fork_child i st.2) !! fd' = Some (WrEnd p') -> fd' = fd).
Proof.
  intros Hreach Hrun Hq.
  pose proof (write_ends_reachable _ _ _ Hreach Hrun) as Hinv.
  destruct (Hinv fd p Hq) as (i & Hpc & Hfd).
  exists i. splits; [exact Hpc | exact Hfd |].
  intros Hat fd' p' Hq'. unfold fork_child in Hq'. proc_simpl.
  destruct (Hinv fd' p' Hq') as (i' & Hpc' & Hfd').
  assert (i' = i) as ->.
  { rewrite Hat in Hpc'. destruct Hpc' as [E|[pid E]]; [|discriminate E].
    injection E as <-. reflexivity. }
  congruence.
Qed.

Lemma supervisor_keeps_no_write_end_witness :
  exists i,
    (pc (ex_final [Run; Run; PipeOk 0 3 4] ex_world ["parallel"; "ok.txt"]).2
     = AtFork i \/
     exists pid, pc (ex_final [Run; Run; PipeOk 0 3 4] ex_world
                              ["parallel"; "ok.txt"]).2 = ParentClose i pid) /\
    4 = write_end (pipes (ex_final [Run; Run; PipeOk 0 3 4] ex_world
                                   ["parallel"; "ok.txt"]).2) (i - 1) /\
    (pc (ex_final [Run; Run; PipeOk 0 3 4] ex_world ["parallel"; "ok.txt"]).2
     = AtFork i ->
     forall fd' p',
       fdt (fork_child i (ex_final [Run; Run; PipeOk 0 3 4] ex_world
                                   ["parallel"; "ok.txt"]).2) !! fd'
       = Some (WrEnd p') -> fd' = 4).
Proof.
  apply (supervisor_keeps_no_write_end ex_world ["parallel"; "ok.txt"]
           (ex_final [Run; Run; PipeOk 0 3 4] ex_world ["parallel"; "ok.txt"]) 4 0).
  - exists [Run; Run; PipeOk 0 3 4]. vm_compute. reflexivity.
  - vm_compute. reflexivity.
  - vm_compute. reflexivity.
Defined.

(** ** The interrupts sent to the workers of "SIG" *)

Lemma kills_snoc l e :
  kills (l ++ [e])
  = kills l ++ match e with EKill pid sig => [(pid, sig)] | _ => [] end.
Proof. unfold kills. rewrite omap_app. destruct e; reflexivity. Qed.

Lemma signalled_step args l st st' :
  shaped args st -> signalled st -> step l st = Some st' -> signalled st'.
Proof.
  destruct st as [w s]. intros (Hav & _ & Hpd & Hpt & _) Hold Hstep.
  unfold signalled in Hold. cbn [snd] in Hav, Hpd, Hpt, Hold.
  destruct (is_halted (pc s)) eqn:Hrun;
    [rewrite step_halted in Hstep by exact Hrun; discriminate|].
  specialize (Hold eq_refl). destruct Hold as (Hnote & Hk1 & Hk2).
  destruct l.
  8: { rewrite step_sigchld in Hstep by exact Hrun.
       destruct (reapable s zs); [|discriminate]. injection Hstep as <-.
       destruct (sigchld_trace junk zs w s)
         as ((evs & Hlog & Hevs) & _ & _ & _ & Tav & Tpd & _).
       intros Hh. unfold argc.
       destruct (sigchld_pc junk zs w s) as [E|E];
         rewrite E in Hh |- *; [|discriminate].
       rewrite Tav, Tpd, Hlog, kills_handler by exact Hevs.
       splits; assumption. }
  7: { rewrite step_deliver in Hstep by exact Hrun. injection Hstep as <-.
       intros Hh. discriminate. }
  all: unfold step, write_counts_pipe in Hstep;
    destruct (pc s) eqn:Hpc; try discriminate Hstep; try contradiction;
    cbv zeta in Hstep; step_branches Hstep; injection Hstep as <-;
    unfold signalled, argc in *; proc_simpl; rewrite ?Hpc;
    rewrite ?kills_snoc, ?app_nil_r;
    cbn [done_args is_halted sup_point] in *; intros Hh; try discriminate Hh;
    try solve
      [ splits;
        [ intros i' pid' [E|E]; first [discriminate E | injection E as <- <-];
          eapply Hnote; left; reflexivity
        | exact Hk1 | exact Hk2 ] ].
  all: try (unfold arg in *).
  - assert (Hi : (length (argv s) - 1 = i - 1)%nat)
      by (apply Nat.ltb_ge in Heqb; rewrite Hav in *; lia).
    rewrite Hi.
    splits; [intros ? ? [E|E]; discriminate E | exact Hk1 | exact Hk2].
  - splits.
    + intros i0 pid0 [E|E]; [injection E as <- <-|discriminate E].
      apply list_lookup_insert_eq. unfold MAX_FILES in *. lia.
    + intros p sg Hin. destruct (Hk1 p sg Hin) as (-> & j & Hj & Ha & Hp).
      split; [reflexivity|]. exists j.
      split; [lia|]. split; [exact Ha|].
      rewrite list_lookup_insert_ne by lia. exact Hp.
    + intros j Hj Ha. destruct (Hk2 j Hj Ha) as (p & Hp & Hin).
      exists p. split; [|exact Hin].
      rewrite list_lookup_insert_ne by lia. exact Hp.
  - apply bool_decide_eq_true in Heqb.
    assert (Ha : argv s !! i = Some "SIG").
    { destruct (argv s !! i); cbn in Heqb; [congruence | discriminate]. }
    assert (Hp : pids s !! (i - 1)%nat = Some pid)
      by (apply Hnote; right; reflexivity).
    replace (S i - 1)%nat with i by lia.
    splits.
    + intros ? ? [E|E]; discriminate E.
    + intros p sg Hin. apply elem_of_app in Hin as [Hin|Hin].
      * destruct (Hk1 p sg Hin) as (-> & j & Hj & Haj & Hpj).
        split; [reflexivity|]. exists j. split; [lia|]. split; [exact Haj | exact Hpj].
      * apply list_elem_of_singleton in Hin. injection Hin as -> ->.
        split; [reflexivity|]. exists i. split; [lia|]. split; [exact Ha | exact Hp].
    + intros j Hj Haj. destruct (decide (j = i)) as [->|Hne].
      * exists pid. split; [exact Hp|].
        apply elem_of_app. right. apply list_elem_of_singleton. reflexivity.
      * destruct (Hk2 j ltac:(lia) Haj) as (p & Hpj & Hin).
        exists p. split; [exact Hpj|]. apply elem_of_app. left. exact Hin.
  - apply bool_decide_eq_false in Heqb.
    replace (S i - 1)%nat with i by lia.
    splits.
    + intros ? ? [E|E]; discriminate E.
    + intros p sg Hin. destruct (Hk1 p sg Hin) as (-> & j & Hj & Haj & Hpj).
      split; [reflexivity|]. exists j. split; [lia|]. split; [exact Haj | exact Hpj].
    + intros j Hj Haj. destruct (decide (j = i)) as [->|Hne].
      * rewrite Haj in Heqb. cbn in Heqb. congruence.
      * apply Hk2; [lia | exact Haj].
Qed.

Lemma signalled_init w0 args : signalled (w0, init args).
Proof.
  unfold signalled, init. proc_simpl. cbn [kills omap done_args].
  intros _. splits.
  - intros ? ? [E|E]; discriminate E.
  - intros ? ? Hin. inversion Hin.
  - intros j Hj. lia.
Qed.

Lemma signalled_reachable w0 args st : reachable w0 args st -> signalled st.
Proof.
  intros [ls Hrun].
  assert (shaped args st /\ signalled st) as [_ H]; [|exact H].
  revert Hrun.
  apply (run_invariant (fun x => shaped args x /\ signalled x)).
  - intros l x x' [Hs Hr] Hstep. split.
    + exact (shaped_step args l x x' Hs Hstep).
    + exact (signalled_step args l x x' Hs Hr Hstep).
  - split; [apply shaped_init | apply signalled_init].
Qed.

(** Line 207 is the only [kill] of the program: every signal the supervisor
    has sent is a [SIGINT], and it went to the worker that was forked for a
    command-line argument equal to [SIG], under the pid that line 201
    recorded for that argument. *)
Theorem supervisor_interrupts_only_sig_workers (w0 : world)
    (args : list string) (st : world * proc) (pid sig : Z) :
  reachable w0 args st -> is_halted (pc st.2) = false ->
  (pid, sig) ∈ kills (log st.2) ->
  sig = SIGINT /\
  exists j, (1 <= j)%nat /\ args !! j = Some "SIG" /\
            pids st.2 !! (j - 1)%nat = Some pid.
Proof.
  intros Hreach Hrun Hin.
  destruct (shaped_reachable _ _ _ Hreach) as (Hav & _).
  destruct (signalled_reachable _ _ _ Hreach Hrun) as (_ & Hk1 & _).
  destruct (Hk1 pid sig Hin) as (-> & j & Hj & Ha & Hp).
  split; [reflexivity|]. exists j.
  split; [lia|]. split; [|exact Hp].
  rewrite <- Hav. exact Ha.
Qed.

Lemma supervisor_interrupts_only_sig_workers_witness :
  SIGINT = SIGINT /\
  exists j, (1 <= j)%nat /\ ["parallel"; "SIG"] !! j = Some "SIG" /\
    pids (ex_final [Run; Run; PipeOk 0 3 4; ForkParent 500; Run; Run; Run; Run]
                   ex_world ["parallel"; "SIG"]).2 !! (j - 1)%nat = Some 500.
Proof.
  apply (supervisor_interrupts_only_sig_workers ex_world ["parallel"; "SIG"]
           (ex_final [Run; Run; PipeOk 0 3 4; ForkParent 500; Run; Run; Run; Run]
                     ex_world ["parallel"; "SIG"]) 500 SIGINT).
  - exists [Run; Run; PipeOk 0 3 4; ForkParent 500; Run; Run; Run; Run].
    vm_compute. reflexivity.
  - vm_compute. reflexivity.
  - refine (bool_decide_unpack _ _). vm_compute. exact I.
Defined.

(** When the loop of lines 141-210 is over and the supervisor waits at line
    214, the worker of every argument equal to [SIG] has been sent a
    [SIGINT] under the pid recorded for it. *)
Theorem every_sig_worker_interrupted (w0 : world) (args : list string)
    (st : world * proc) (j : nat) :
  reachable w0 args st -> pc st.2 = AtWait ->
  (1 <= j)%nat -> args !! j = Some "SIG" ->
  exists pid, pids st.2 !! (j - 1)%nat = Some pid /\
              (pid, SIGINT) ∈ kills (log st.2).
Proof.
  intros Hreach Hpc Hj Ha.
  destruct (shaped_reachable _ _ _ Hreach) as (Hav & _).
  assert (Hrun : is_halted (pc st.2) = false) by (rewrite Hpc; reflexivity).
  destruct (signalled_reachable _ _ _ Hreach Hrun) as (_ & _ & Hk2).
  rewrite Hpc in Hk2. cbn [done_args] in Hk2.
  apply Hk2.
  - apply lookup_lt_Some in Ha. unfold argc. rewrite Hav. lia.
  - rewrite Hav. exact Ha.
Qed.

Lemma every_sig_worker_interrupted_witness :
  exists pid,
    pids (ex_final [Run; Run; PipeOk 0 3 4; ForkParent 500; Run; Run; Run; Run; Run]
                   ex_world ["parallel"; "SIG"]).2 !! (1 - 1)%nat = Some pid /\
    (pid, SIGINT) ∈
      kills (log (ex_final [Run; Run; PipeOk 0 3 4; ForkParent 500; Run; Run; Run; Run; Run]
                           ex_world ["parallel"; "SIG"]).2).
Proof.
  apply (every_sig_worker_interrupted ex_world ["parallel"; "SIG"]
           (ex_final [Run; Run; PipeOk 0 3 4; ForkParent 500; Run; Run; Run; Run; Run]
                     ex_world ["parallel"; "SIG"]) 1%nat).
  - exists [Run; Run; PipeOk 0 3 4; ForkParent 500; Run; Run; Run; Run; Run].
    vm_compute. reflexivity.
  - vm_compute. reflexivity.
  - lia.
  - reflexivity.
Defined.

(** ** File names *)

Lemma list_ascii_app (a b : string) :
  String.list_ascii_of_string (a +:+ b)
  = String.list_ascii_of_string a ++ String.list_ascii_of_string b.
Proof.
  induction a as [|x a IH].
  - rewrite string_app_nil. reflexivity.
  - rewrite string_app_cons. cbn [String.list_ascii_of_string].
    rewrite IH. reflexivity.
Qed.

Lemma list_ascii_inj (a b : string) :
  String.list_ascii_of_string a = String.list_ascii_of_string b -> a = b.
Proof.
  intros H.
  rewrite <- (String.string_of_list_ascii_of_string a),
          <- (String.string_of_list_ascii_of_string b), H.
  reflexivity.
Qed.

Lemma to_int_not_nil (n : Z) :
  Z.to_int n <> Decimal.Pos Decimal.Nil /\ Z.to_int n <> Decimal.Neg Decimal.Nil.
Proof.
  destruct n as [|p|p]; cbn; split; try discriminate;
    intros H; injection H as H;
    exact (DecimalPos.Unsigned.to_uint_nonnil p H).
Qed.

Lemma dec_inj (a b : Z) : dec a = dec b -> a = b.
Proof.
  unfold dec. intros H.
  apply DecimalZ.to_int_inj.
  destruct (to_int_not_nil a) as [Ha1 Ha2], (to_int_not_nil b) as [Hb1 Hb2].
  pose proof (NilZero.isi _ Ha1 Ha2) as Ea.
  pose proof (NilZero.isi _ Hb1 Hb2) as Eb.
  rewrite H in Ea. rewrite Ea in Eb. injection Eb as Eb. exact Eb.
Qed.

(** Line 60 names the file after the pid alone, and [%d] prints different
    numbers differently: the results of two children with different pids
    never go to the same file. *)
Theorem hist_name_distinct (pid pid' : Z) :
  pid <> pid' -> hist_name pid <> hist_name pid'.
Proof.
  intros Hne H. apply Hne, dec_inj, list_ascii_inj.
  unfold hist_name in H.
  apply (f_equal String.list_ascii_of_string) in H.
  rewrite !list_ascii_app in H.
  apply app_inv_head in H. apply app_inv_tail in H. exact H.
Qed.

Lemma hist_name_distinct_witness : hist_name 500 <> hist_name 501.
Proof.
  apply (hist_name_distinct 500 501). discriminate.
Defined.

(** ** The channel the handler reads for a child *)



















(** The supervisor of a system is a supervisor in an environment. *)
Lemma sys_run_supervisor args sched : forall sy sy',
  supervisor_state args (sys_sup sy) -> sys_run sched sy = Some sy' ->
  supervisor_state args (sys_sup sy').
Proof.
  induction sched as [|[who l] sched IH]; intros sy sy' Hs Hrun; cbn [sys_run] in Hrun.
  - injection Hrun as <-. exact Hs.
  - destruct (sys_step who l sy) as [sy1|] eqn:E; [|discriminate].
    apply (IH sy1 sy'); [|exact Hrun].
    unfold sys_step in E. destruct who as [pid|].
    + destruct (sys_kids sy !! pid) as [k|]; [|discriminate].
      destruct (step l (sys_world sy, k)) as [[w' k']|]; [|discriminate].
      injection E as <-. exact Hs.
    + destruct (step l (sys_world sy, sys_sup sy)) as [[w' s']|] eqn:Es; [|discriminate].
      assert (sys_sup sy1 = s') as ->.
      { step_branches E; injection E as <-; reflexivity. }
      exact (evolves_step _ l _ w' _ s' Hs Es).
Qed.




